(** * The data-exploration workspace of [src/App.jsx], embedded in Rocq

    The file follows the source component by component: JavaScript strings
    and JSON values, the toast queue ([useToasts]), the upload widget
    ([FileUpload]), the result table and its CSV export ([Results]) and the
    orchestrating [App] component with its asynchronous handlers.

    Asynchronous code is cut at each [await]: what runs before it is a
    handler, what runs after it is a continuation kept with the request it
    waits for, together with the variables its closure captured.

    Left out are the parts that only paint: the theme and its entry in the
    store, the landing animation, the drag-and-drop state and the progress
    bar of an upload. *)

From Stdlib Require Import NArith Lia String Ascii DecimalString.
From stdpp Require Import base option list gmap.

Local Open Scope N_scope.

#[local] Set Warnings "-register-all".

(** ** JavaScript strings *)

(** A JavaScript string is a sequence of UTF-16 code units. *)
Abbreviation jsstring := (list N).

(** Literals of the source are written [js "..."]. *)
Definition js (s : string) : jsstring :=
  map N_of_ascii (list_ascii_of_string s).

Module Chars.
Definition LF : N := 10.
Definition CR : N := 13.
Definition DQUOTE : N := 34.
Definition COMMA : N := 44.
End Chars.

(** [WhiteSpace] and [LineTerminator] of ECMA-262, the code units that
    [String.prototype.trim] strips. *)
Definition isWhiteSpace (c : N) : bool :=
  (c =? 9) || (c =? 10) || (c =? 11) || (c =? 12) || (c =? 13) || (c =? 32)
  || (c =? 160) || (c =? 5760) || ((8192 <=? c) && (c <=? 8202))
  || (c =? 8232) || (c =? 8233) || (c =? 8239) || (c =? 8287)
  || (c =? 12288) || (c =? 65279).

Fixpoint trimStart (s : jsstring) : jsstring :=
  match s with
  | c :: s' => if isWhiteSpace c then trimStart s' else s
  | [] => []
  end.

Definition trimEnd (s : jsstring) : jsstring := rev (trimStart (rev s)).

(** [s.trim()] *)
Definition trim (s : jsstring) : jsstring := trimEnd (trimStart s).

(** Truthiness of a string: [!s] holds exactly of the empty string. *)
Definition nonEmpty (s : jsstring) : bool :=
  match s with [] => false | _ :: _ => true end.

(** [s.toLowerCase()] on the letters A to Z.  Other code units are left as
    they are; the only code points outside A to Z that ECMA-262 lowers to a
    letter of the Latin alphabet are U+212A (to k) and U+0130 (to i followed
    by U+0307), neither of which occurs in a file extension tested below. *)
Definition lowerUnit (c : N) : N :=
  if (65 <=? c) && (c <=? 90) then c + 32 else c.

Definition toLowerCase (s : jsstring) : jsstring := map lowerUnit s.

(** [s.endsWith(suffix)] *)
Definition endsWith (s suffix : jsstring) : bool :=
  bool_decide (drop (length s - length suffix) s = suffix).

(** [s.includes(c)] for a one-unit search string [c]. *)
Definition includes (s : jsstring) (c : N) : bool := bool_decide (c ∈ s).

(** Decimal rendering of a natural number, as a template literal prints an
    integer such as [res.status]. *)
Definition decimal (n : N) : jsstring :=
  js (NilEmpty.string_of_uint (N.to_uint n)).

(** [parts.join(sep)] on an array of strings. *)
Fixpoint join (sep : jsstring) (parts : list jsstring) : jsstring :=
  match parts with
  | [] => []
  | [p] => p
  | p :: rest => p ++ sep ++ join sep rest
  end.

(** ** JSON values *)

(** The values [JSON.parse] and [Response.json] produce.  A number is kept
    as the text [Number.prototype.toString] gives for it, which is all this
    program observes of a number besides whether it is zero. *)
Inductive json : Type :=
  | JNull
  | JBool (b : bool)
  | JNum (repr : jsstring)
  | JStr (s : jsstring)
  | JArr (items : list json)
  | JObj (fields : list (jsstring * json)).

(** A JavaScript value that may be [undefined]. *)
Abbreviation jsvalue := (option json).

(** [Array.isArray(v)] *)
Definition isArray (v : json) : bool :=
  match v with JArr _ => true | _ => false end.

(** [ToBoolean]. *)
Definition truthy (v : jsvalue) : bool :=
  match v with
  | None | Some JNull => false
  | Some (JBool b) => b
  | Some (JNum r) => negb (bool_decide (r = js "0"))
  | Some (JStr s) => nonEmpty s
  | Some (JArr _) | Some (JObj _) => true
  end.

(** [a || b] *)
Definition js_or (a b : jsvalue) : jsvalue := if truthy a then a else b.

(** [v == null] *)
Definition nullish (v : jsvalue) : bool :=
  match v with None | Some JNull => true | _ => false end.

Fixpoint assoc (k : jsstring) (fields : list (jsstring * json)) : jsvalue :=
  match fields with
  | [] => None
  | (k', v) :: rest => if bool_decide (k' = k) then Some v else assoc k rest
  end.

(** A decimal digit. *)
Definition digit (c : N) : bool := (48 <=? c) && (c <=? 57).

(** The element a property key [k] denotes in an array or a string of [n]
    elements: [k] is the decimal text of an index below [n]. *)
Definition array_index (k : jsstring) (n : nat) : option nat :=
  List.find (fun i => bool_decide (decimal (N.of_nat i) = k)) (seq 0 n).

(** [o[k]] and [o.k] for a value that is not [null] or [undefined], as far
    as own properties go: a field of an object, an element or the [length]
    of an array, a code unit or the [length] of a string.  A key that is no
    own property reads as [undefined]: so it does for the names the page
    reads ([id], [_id], [name], [tables], [rows], [columns], ...), none of
    which is a member of a built-in prototype.  The one read with a key
    that the data choose, [r[c]] in [exportCsv], goes through [member]
    below, which looks at the built-in members as well. *)
Definition get (o : json) (k : jsstring) : jsvalue :=
  match o with
  | JObj fields => assoc k fields
  | JArr items =>
      if bool_decide (k = js "length")
      then Some (JNum (decimal (N.of_nat (length items))))
      else array_index k (length items) ≫= (items !!.)
  | JStr s =>
      if bool_decide (k = js "length")
      then Some (JNum (decimal (N.of_nat (length s))))
      else (fun c => JStr [c]) <$> (array_index k (length s) ≫= (s !!.))
  | _ => None
  end.

(** [o?.k] *)
Definition get_opt (o : jsvalue) (k : jsstring) : jsvalue :=
  match o with
  | None | Some JNull => None
  | Some v => get v k
  end.

(** [String(v)] and [`${v}`] for a JSON value. *)
Fixpoint ToString (v : json) : jsstring :=
  match v with
  | JNull => js "null"
  | JBool true => js "true"
  | JBool false => js "false"
  | JNum r => r
  | JStr s => s
  | JArr items =>
      join [Chars.COMMA]
        (map (fun x => match x with JNull => [] | _ => ToString x end) items)
  | JObj _ => js "[object Object]"
  end.

Definition ToString_value (v : jsvalue) : jsstring :=
  match v with None => js "undefined" | Some x => ToString x end.

(** Strict equality [a === b] of two values read from different objects:
    primitives compare by value, arrays and objects by identity, and two
    different objects never share a part. *)
Definition strictEquals (a b : jsvalue) : bool :=
  match a, b with
  | None, None => true
  | Some JNull, Some JNull => true
  | Some (JBool x), Some (JBool y) => bool_decide (x = y)
  | Some (JNum x), Some (JNum y) => bool_decide (x = y)
  | Some (JStr x), Some (JStr y) => bool_decide (x = y)
  | _, _ => false
  end.

(** ** Completions *)

(** A JavaScript expression either yields a value or throws an error; of an
    error this program only reads [e.message]. *)
Inductive completion (A : Type) : Type :=
  | Normal (a : A)
  | Throw (message : jsstring).
Arguments Normal {A} a.
Arguments Throw {A} message.

Definition cbind {A B} (c : completion A) (k : A -> completion B)
  : completion B :=
  match c with
  | Normal a => k a
  | Throw m => Throw m
  end.

(** [try { body } catch { handler }] *)
Definition try_catch {A} (body : completion A) (handler : jsstring -> completion A)
  : completion A :=
  match body with
  | Normal a => Normal a
  | Throw m => handler m
  end.

(** ** The toast queue, files and requests *)

Inductive toast_type : Type := success | error.

(** A toast as [useToasts] stores it: [{ id, type, title, message }]. *)
Record toast : Type := {
  toast_id : jsstring;
  type : toast_type;
  title : jsstring;
  message : option jsstring
}.

(** The argument of [add]; [type] defaults to ['success']. *)
Record toast_arg : Type := {
  arg_type : option toast_type;
  arg_title : jsstring;
  arg_message : option jsstring
}.

(** Of a [File] the program reads [type] and [name]. *)
Record file : Type := { file_type : jsstring; file_name : jsstring }.

(** A table object handed over by the sidebar.  [tref] is the identity of
    the object (React compares a new [selectedTable] with the old one by
    [Object.is]), [tval] its content.  Table entries are taken to be
    objects, as the listing endpoint returns them. *)
Record table : Type := { tref : nat; tval : json }.

(** The requests the program issues.  The identifier of a table is kept as
    the value handed to [encodeURIComponent]. *)
Inductive request : Type :=
  | GET_tables
  | GET_table (id : jsvalue)
  | DELETE_table (id : jsvalue)
  | POST_upload (form : list (jsstring * file))
  | POST_query (body : jsstring).

(** What a [fetch] followed by [res.json()] settles to: the promise of
    [fetch] rejects, or a response arrives with a status and a body that
    [res.json()] parses or rejects. *)
Inductive response : Type :=
  | Rejected (message : jsstring)
  | Responded (status : N) (body : completion json).

(** The code waiting behind an [await], with the variables of the render in
    which the handler was created: a handler keeps reading its own
    [selectedTable], [query] and [history] after the component has rendered
    again. *)
Inductive kont : Type :=
  | K_refreshTables
  | K_fetchSchema
  | K_deleteTable (tbl : table) (selected : option table)
  | K_deleteTable_refreshed (tbl : table) (selected : option table)
  | K_runQuery (query : jsstring) (history : json)
  | K_upload.

(** ** State *)

(** The state of the components together with the part of the browser they
    act on. *)
Record World : Type := {
  toasts : list toast;  (* state of useToasts *)
  tables : json;  (* useState([]) *)
  selectedTable : option table;  (* useState(null); None is null *)
  schema : json;  (* useState(null); JNull is null *)
  loadingTables : bool;
  loadingSchema : bool;
  query : jsstring;  (* useState('') *)
  running : bool;
  result : json;  (* useState(null) *)
  history : json;  (* initialised from localStorage *)
  uploading : bool;  (* state of FileUpload *)
  progress : N;  (* state of FileUpload *)
  localStorage : gmap jsstring jsstring;  (* the browser's key-value store *)
  now : N;  (* the clock, in milliseconds *)
  timers : list (N * jsstring);  (* pending setTimeout callbacks: due time and the id to remove *)
  randoms : nat;  (* how many times Math.random was called *)
  next_request : nat;  (* the number that names the next request in this model; the program has no such number *)
  pending : list (nat * kont);  (* requests in flight, each with the code that awaits it *)
  sent : list request  (* every request issued so far, oldest first *)
}.

Definition setToasts (v : list toast) (w : World) : World :=
  {| toasts := v; tables := tables w; selectedTable := selectedTable w;
     schema := schema w; loadingTables := loadingTables w;
     loadingSchema := loadingSchema w; query := query w;
     running := running w; result := result w; history := history w;
     uploading := uploading w; progress := progress w;
     localStorage := localStorage w; now := now w; timers := timers w;
     randoms := randoms w; next_request := next_request w;
     pending := pending w; sent := sent w |}.

Definition setTables (v : json) (w : World) : World :=
  {| toasts := toasts w; tables := v; selectedTable := selectedTable w;
     schema := schema w; loadingTables := loadingTables w;
     loadingSchema := loadingSchema w; query := query w;
     running := running w; result := result w; history := history w;
     uploading := uploading w; progress := progress w;
     localStorage := localStorage w; now := now w; timers := timers w;
     randoms := randoms w; next_request := next_request w;
     pending := pending w; sent := sent w |}.

Definition setSelectedTable (v : option table) (w : World) : World :=
  {| toasts := toasts w; tables := tables w; selectedTable := v;
     schema := schema w; loadingTables := loadingTables w;
     loadingSchema := loadingSchema w; query := query w;
     running := running w; result := result w; history := history w;
     uploading := uploading w; progress := progress w;
     localStorage := localStorage w; now := now w; timers := timers w;
     randoms := randoms w; next_request := next_request w;
     pending := pending w; sent := sent w |}.

Definition setSchema (v : json) (w : World) : World :=
  {| toasts := toasts w; tables := tables w;
     selectedTable := selectedTable w; schema := v;
     loadingTables := loadingTables w; loadingSchema := loadingSchema w;
     query := query w; running := running w; result := result w;
     history := history w; uploading := uploading w; progress := progress w;
     localStorage := localStorage w; now := now w; timers := timers w;
     randoms := randoms w; next_request := next_request w;
     pending := pending w; sent := sent w |}.

Definition setLoadingTables (v : bool) (w : World) : World :=
  {| toasts := toasts w; tables := tables w;
     selectedTable := selectedTable w; schema := schema w;
     loadingTables := v; loadingSchema := loadingSchema w; query := query w;
     running := running w; result := result w; history := history w;
     uploading := uploading w; progress := progress w;
     localStorage := localStorage w; now := now w; timers := timers w;
     randoms := randoms w; next_request := next_request w;
     pending := pending w; sent := sent w |}.

Definition setLoadingSchema (v : bool) (w : World) : World :=
  {| toasts := toasts w; tables := tables w;
     selectedTable := selectedTable w; schema := schema w;
     loadingTables := loadingTables w; loadingSchema := v; query := query w;
     running := running w; result := result w; history := history w;
     uploading := uploading w; progress := progress w;
     localStorage := localStorage w; now := now w; timers := timers w;
     randoms := randoms w; next_request := next_request w;
     pending := pending w; sent := sent w |}.

Definition setQuery (v : jsstring) (w : World) : World :=
  {| toasts := toasts w; tables := tables w;
     selectedTable := selectedTable w; schema := schema w;
     loadingTables := loadingTables w; loadingSchema := loadingSchema w;
     query := v; running := running w; result := result w;
     history := history w; uploading := uploading w; progress := progress w;
     localStorage := localStorage w; now := now w; timers := timers w;
     randoms := randoms w; next_request := next_request w;
     pending := pending w; sent := sent w |}.

Definition setRunning (v : bool) (w : World) : World :=
  {| toasts := toasts w; tables := tables w;
     selectedTable := selectedTable w; schema := schema w;
     loadingTables := loadingTables w; loadingSchema := loadingSchema w;
     query := query w; running := v; result := result w;
     history := history w; uploading := uploading w; progress := progress w;
     localStorage := localStorage w; now := now w; timers := timers w;
     randoms := randoms w; next_request := next_request w;
     pending := pending w; sent := sent w |}.

Definition setResult (v : json) (w : World) : World :=
  {| toasts := toasts w; tables := tables w;
     selectedTable := selectedTable w; schema := schema w;
     loadingTables := loadingTables w; loadingSchema := loadingSchema w;
     query := query w; running := running w; result := v;
     history := history w; uploading := uploading w; progress := progress w;
     localStorage := localStorage w; now := now w; timers := timers w;
     randoms := randoms w; next_request := next_request w;
     pending := pending w; sent := sent w |}.

Definition setHistory (v : json) (w : World) : World :=
  {| toasts := toasts w; tables := tables w;
     selectedTable := selectedTable w; schema := schema w;
     loadingTables := loadingTables w; loadingSchema := loadingSchema w;
     query := query w; running := running w; result := result w;
     history := v; uploading := uploading w; progress := progress w;
     localStorage := localStorage w; now := now w; timers := timers w;
     randoms := randoms w; next_request := next_request w;
     pending := pending w; sent := sent w |}.

Definition setUploading (v : bool) (w : World) : World :=
  {| toasts := toasts w; tables := tables w;
     selectedTable := selectedTable w; schema := schema w;
     loadingTables := loadingTables w; loadingSchema := loadingSchema w;
     query := query w; running := running w; result := result w;
     history := history w; uploading := v; progress := progress w;
     localStorage := localStorage w; now := now w; timers := timers w;
     randoms := randoms w; next_request := next_request w;
     pending := pending w; sent := sent w |}.

Definition setProgress (v : N) (w : World) : World :=
  {| toasts := toasts w; tables := tables w;
     selectedTable := selectedTable w; schema := schema w;
     loadingTables := loadingTables w; loadingSchema := loadingSchema w;
     query := query w; running := running w; result := result w;
     history := history w; uploading := uploading w; progress := v;
     localStorage := localStorage w; now := now w; timers := timers w;
     randoms := randoms w; next_request := next_request w;
     pending := pending w; sent := sent w |}.

Definition with_localStorage (v : gmap jsstring jsstring) (w : World) : World :=
  {| toasts := toasts w; tables := tables w;
     selectedTable := selectedTable w; schema := schema w;
     loadingTables := loadingTables w; loadingSchema := loadingSchema w;
     query := query w; running := running w; result := result w;
     history := history w; uploading := uploading w; progress := progress w;
     localStorage := v; now := now w; timers := timers w;
     randoms := randoms w; next_request := next_request w;
     pending := pending w; sent := sent w |}.

Definition with_now (v : N) (w : World) : World :=
  {| toasts := toasts w; tables := tables w;
     selectedTable := selectedTable w; schema := schema w;
     loadingTables := loadingTables w; loadingSchema := loadingSchema w;
     query := query w; running := running w; result := result w;
     history := history w; uploading := uploading w; progress := progress w;
     localStorage := localStorage w; now := v; timers := timers w;
     randoms := randoms w; next_request := next_request w;
     pending := pending w; sent := sent w |}.

Definition with_timers (v : list (N * jsstring)) (w : World) : World :=
  {| toasts := toasts w; tables := tables w;
     selectedTable := selectedTable w; schema := schema w;
     loadingTables := loadingTables w; loadingSchema := loadingSchema w;
     query := query w; running := running w; result := result w;
     history := history w; uploading := uploading w; progress := progress w;
     localStorage := localStorage w; now := now w; timers := v;
     randoms := randoms w; next_request := next_request w;
     pending := pending w; sent := sent w |}.

Definition with_randoms (v : nat) (w : World) : World :=
  {| toasts := toasts w; tables := tables w;
     selectedTable := selectedTable w; schema := schema w;
     loadingTables := loadingTables w; loadingSchema := loadingSchema w;
     query := query w; running := running w; result := result w;
     history := history w; uploading := uploading w; progress := progress w;
     localStorage := localStorage w; now := now w; timers := timers w;
     randoms := v; next_request := next_request w; pending := pending w;
     sent := sent w |}.

Definition with_next_request (v : nat) (w : World) : World :=
  {| toasts := toasts w; tables := tables w;
     selectedTable := selectedTable w; schema := schema w;
     loadingTables := loadingTables w; loadingSchema := loadingSchema w;
     query := query w; running := running w; result := result w;
     history := history w; uploading := uploading w; progress := progress w;
     localStorage := localStorage w; now := now w; timers := timers w;
     randoms := randoms w; next_request := v; pending := pending w;
     sent := sent w |}.

Definition with_pending (v : list (nat * kont)) (w : World) : World :=
  {| toasts := toasts w; tables := tables w;
     selectedTable := selectedTable w; schema := schema w;
     loadingTables := loadingTables w; loadingSchema := loadingSchema w;
     query := query w; running := running w; result := result w;
     history := history w; uploading := uploading w; progress := progress w;
     localStorage := localStorage w; now := now w; timers := timers w;
     randoms := randoms w; next_request := next_request w; pending := v;
     sent := sent w |}.

Definition with_sent (v : list request) (w : World) : World :=
  {| toasts := toasts w; tables := tables w;
     selectedTable := selectedTable w; schema := schema w;
     loadingTables := loadingTables w; loadingSchema := loadingSchema w;
     query := query w; running := running w; result := result w;
     history := history w; uploading := uploading w; progress := progress w;
     localStorage := localStorage w; now := now w; timers := timers w;
     randoms := randoms w; next_request := next_request w;
     pending := pending w; sent := v |}.

(** ** History of queries *)

(** [x !== text] for an entry [x] of the stored history and a string. *)
Definition strictNotEqual_string (x : json) (text : jsstring) : bool :=
  match x with
  | JStr s => negb (bool_decide (s = text))
  | _ => true
  end.

(** [[text, ...history.filter((q) => q !== text)].slice(0, 10)] *)
Definition insertHistory (text : jsstring) (entries : list json) : list json :=
  take 10 (JStr text :: filter (fun x => strictNotEqual_string x text) entries).

(** ** The result table and its CSV export *)

(** The [replace] of [exportCsv]: every double quote of [s] is doubled. *)
Definition doubleQuotes (s : jsstring) : jsstring :=
  flat_map (fun c => if c =? Chars.DQUOTE then [Chars.DQUOTE; Chars.DQUOTE] else [c]) s.

(** What [r[c]] gives in [exportCsv]: a JSON value or [undefined], or a
    member of a built-in prototype, of which the export takes only the text
    that [String] gives. *)
Inductive cell : Type :=
  | Value (v : jsvalue)
  | Builtin (text : jsstring).

(** [v == null ? '' : String(v)] *)
Definition cellString (x : cell) : jsstring :=
  match x with
  | Value v => if nullish v then [] else ToString_value v
  | Builtin text => text
  end.

(** The function [exportCsv] maps over every cell: the cell as a string,
    in quotes when it holds a comma, a line feed or a quote. *)
Definition csvCell (x : cell) : jsstring :=
  let s := cellString x in
  if includes s Chars.COMMA || includes s Chars.LF || includes s Chars.DQUOTE
  then [Chars.DQUOTE] ++ doubleQuotes s ++ [Chars.DQUOTE]
  else s.

(** What the engine provides besides own properties: for a value [r] and a
    key [k] that is no own property of [r], the text [String(r[k])] of the
    member [r] inherits under [k] ([constructor], [toString], [map], ...),
    and [None] when there is no such member and [r[k]] is [undefined]. *)
Definition members : Type := json -> jsstring -> option jsstring.

(** [r[c]]: the column [c] is used as a property key through [ToString];
    [None] when [r] is [null] and the read throws a [TypeError]. *)
Definition member (inherited : members) (r c : json) : option cell :=
  match r with
  | JNull => None
  | _ =>
      Some (match get r (ToString c) with
            | Some v => Value (Some v)
            | None =>
                match inherited r (ToString c) with
                | Some text => Builtin text
                | None => Value None
                end
            end)
  end.

(** [[cols, ...rows.map((r) => cols.map((c) => r[c]))]] for the columns and
    rows [Results] shows; [None] when a read throws. *)
Definition csvGrid (inherited : members) (cols rows : list json)
  : option (list (list cell)) :=
  (fun body => map (fun c => Value (Some c)) cols :: body)
    <$> mapM (fun r => mapM (member inherited r) cols) rows.

(** The text [exportCsv] puts into the downloaded file; [None] when it
    throws before there is a file. *)
Definition exportCsv (inherited : members) (cols rows : list json)
  : option jsstring :=
  (fun grid => join [Chars.LF] (map (fun r => join [Chars.COMMA] (map csvCell r)) grid))
    <$> csvGrid inherited cols rows.

(** ** useDarkMode *)

(** The initialiser of [isDark]: [false] without a window, else the stored
    theme when there is one, else what the system prefers;
    [prefers_dark] is [matchMedia('(prefers-color-scheme: dark)').matches]. *)
Definition useDarkMode_initializer (window_defined : bool)
    (store : gmap jsstring jsstring) (prefers_dark : bool) : bool :=
  if negb window_defined then false
  else match store !! js "theme" with
       | Some stored =>
           if nonEmpty stored then bool_decide (stored = js "dark")
           else prefers_dark
       | None => prefers_dark
       end.

(** What the effect on [isDark] writes to the store. *)
Definition useDarkMode_effect (isDark : bool) (store : gmap jsstring jsstring)
  : gmap jsstring jsstring :=
  <[js "theme" := if isDark then js "dark" else js "light"]> store.

(** ** What React renders *)

(** A value React accepts as a child: text for a string or a number,
    nothing for a boolean or [null], the elements of an array in turn; an
    object makes React throw while it renders. *)
Fixpoint React_child (v : json) : bool :=
  match v with
  | JObj _ => false
  | JArr items => forallb React_child items
  | _ => true
  end.

(** ** The components *)

Module App.
Section Components.

(** What the browser provides: the JSON codec, the texts of
    [Math.random().toString(36).slice(2)] in the order of the calls, and
    the message of the [TypeError] the engine raises. *)
Variable JSON_parse : jsstring -> completion json.
Variable JSON_stringify : json -> jsstring.
Variable random_id : nat -> jsstring.
Variable TypeError_message : jsstring.

(** What else the page finds around it: whether the system prefers a dark
    theme, [matchMedia('(prefers-color-scheme: dark)').matches], and the
    message of the error React throws for a child it cannot render. *)
Variable prefers_dark : bool.
Variable React_error : json -> jsstring.

(** *** useToasts *)

(** [remove(id)]: [setToasts((prev) => prev.filter((t) => t.id !== id))] *)
Definition remove (id : jsstring) (w : World) : World :=
  setToasts (filter (fun t => toast_id t ≠ id) (toasts w)) w.

(** [add(toast)]: a fresh id, the toast appended, and [remove(id)]
    scheduled 6000 ms from now. *)
Definition add (a : toast_arg) (w : World) : World :=
  let id := random_id (randoms w) in
  let t := {| toast_id := id;
              type := default success (arg_type a);
              title := arg_title a;
              message := arg_message a |} in
  with_timers (timers w ++ [(now w + 6000, id)])
    (setToasts (toasts w ++ [t])
      (with_randoms (S (randoms w)) w)).

Definition toast_success (t : jsstring) (m : option jsstring) : toast_arg :=
  {| arg_type := None; arg_title := t; arg_message := m |}.

Definition toast_error (t : jsstring) (m : jsstring) : toast_arg :=
  {| arg_type := Some error; arg_title := t; arg_message := Some m |}.

(** The clock advances by [dt]; the callbacks that fall due run, oldest
    first.  Every timer of the program has the same delay, so the list is
    in order of due time. *)
Definition elapse (dt : N) (w : World) : World :=
  let t := now w + dt in
  let due := filter (fun k => fst k ≤ t) (timers w) in
  let later := filter (fun k => ¬ fst k ≤ t) (timers w) in
  foldl (fun w' k => remove (snd k) w') (with_now t (with_timers later w)) due.

(** *** The network *)

(** A request leaves and the code after the [await] is parked. *)
Definition fetch (r : request) (k : kont) (w : World) : World :=
  with_sent (sent w ++ [r])
    (with_pending (pending w ++ [(next_request w, k)])
      (with_next_request (S (next_request w)) w)).

Definition ok (status : N) : bool := (200 <=? status) && (status <=? 299).

Definition Status (status : N) : jsstring := js "Status " ++ decimal status.

(** *** FileUpload *)

Definition allowed : list jsstring :=
  [ js "text/csv";
    js "application/vnd.ms-excel";
    js "application/vnd.openxmlformats-officedocument.spreadsheetml.sheet" ].

(** The test of [handleFiles] that rejects a file. *)
Definition unsupported (f : file) : bool :=
  negb (bool_decide (file_type f ∈ allowed))
  && negb (endsWith (toLowerCase (file_name f)) (js ".csv"))
  && negb (endsWith (toLowerCase (file_name f)) (js ".xlsx"))
  && negb (endsWith (toLowerCase (file_name f)) (js ".xls")).

Definition handleFiles (files : list file) (w : World) : World :=
  match files with
  | [] => w
  | f :: _ =>
      if unsupported f
      then add (toast_error (js "Unsupported file")
                            (js "Please upload CSV or Excel files.")) w
      else fetch (POST_upload [(js "file", f)]) K_upload (setUploading true w)
  end.

(** *** App: tables and schema *)

Definition refreshTables (w : World) : World :=
  fetch GET_tables K_refreshTables (setLoadingTables true w).

(** [refreshTables] after its [await]s. *)
Definition refreshTables_settle (r : response) (w : World) : World :=
  let failed m := add (toast_error (js "Failed to load tables") m) w in
  setLoadingTables false
    match r with
    | Rejected m => failed m
    | Responded status body =>
        if ok status then
          match body with
          | Throw m => failed m
          | Normal data =>
              if isArray data then setTables data w
              else match data with
                   | JNull => failed TypeError_message
                   | _ => setTables
                            (default (JArr [])
                               (js_or (get data (js "tables")) (Some (JArr []))))
                            w
                   end
          end
        else failed (Status status)
    end.

Definition fetchSchema (id : jsvalue) (w : World) : World :=
  fetch (GET_table id) K_fetchSchema (setLoadingSchema true w).

(** [fetchSchema] after its [await]s: the data of whichever response
    arrives is stored. *)
Definition fetchSchema_settle (r : response) (w : World) : World :=
  let failed m := add (toast_error (js "Failed to load schema") m) w in
  setLoadingSchema false
    match r with
    | Rejected m => failed m
    | Responded status body =>
        if ok status then
          match body with
          | Throw m => failed m
          | Normal data => setSchema data w
          end
        else failed (Status status)
    end.

(** [t.id || t._id || t.name] *)
Definition table_key (t : table) : jsvalue :=
  js_or (js_or (get (tval t) (js "id")) (get (tval t) (js "_id")))
        (get (tval t) (js "name")).

(** [Object.is] on the values [selectedTable] takes. *)
Definition same_object (a b : option table) : bool :=
  match a, b with
  | None, None => true
  | Some x, Some y => bool_decide (tref x = tref y)
  | _, _ => false
  end.

(** The sidebar calls [setSelectedTable(t)]; when the value changed the
    component renders again and the effect on [selectedTable] runs. *)
Definition selectTable (t : table) (w : World) : World :=
  if same_object (selectedTable w) (Some t) then w
  else
    let w1 := setSelectedTable (Some t) w in
    if truthy (table_key t) then fetchSchema (table_key t) w1 else w1.

(** [deleteTable(tbl)] up to its first [await]; [confirmed] is the answer
    to [confirm]. *)
Definition deleteTable (tbl : table) (confirmed : bool) (w : World) : World :=
  if confirmed
  then fetch (DELETE_table (table_key tbl)) (K_deleteTable tbl (selectedTable w)) w
  else w.

(** After the DELETE settled: on success the toast and [refreshTables()],
    which is awaited. *)
Definition deleteTable_settle (tbl : table) (selected : option table)
    (r : response) (w : World) : World :=
  let failed m := add (toast_error (js "Failed to delete") m) w in
  match r with
  | Rejected m => failed m
  | Responded status _ =>
      if ok status then
        fetch GET_tables (K_deleteTable_refreshed tbl selected)
          (setLoadingTables true
            (add (toast_success (js "Table deleted") None) w))
      else failed (Status status)
  end.

(** [selectedTable && (selectedTable.id === tbl.id)] *)
Definition selected_is (selected : option table) (tbl : table) : bool :=
  match selected with
  | None => false
  | Some s =>
      bool_decide (tref s = tref tbl)
      || strictEquals (get (tval s) (js "id")) (get (tval tbl) (js "id"))
  end.

(** After the awaited [refreshTables()] finished. *)
Definition deleteTable_refreshed (tbl : table) (selected : option table)
    (r : response) (w : World) : World :=
  let w1 := refreshTables_settle r w in
  if selected_is selected tbl
  then setSchema JNull (setSelectedTable None w1)
  else w1.

(** *** App: queries *)

(** [runQuery()] up to its first [await]. *)
Definition runQuery (w : World) : World :=
  if negb (nonEmpty (trim (query w))) then w
  else
    fetch (POST_query (JSON_stringify (JObj [(js "query", JStr (trim (query w)))])))
          (K_runQuery (query w) (history w))
          (setResult JNull (setRunning true w)).

(** [runQuery] after its [await]s; [q] and [hist] are the [query] and
    [history] of the render that started the run. *)
Definition runQuery_settle (q : jsstring) (hist : json) (r : response)
    (w : World) : World :=
  let failed m w' := add (toast_error (js "Query failed") m) w' in
  setRunning false
    match r with
    | Rejected m => failed m w
    | Responded status body =>
        if ok status then
          match body with
          | Throw m => failed m w
          | Normal data =>
              let w1 := add (toast_success (js "Query completed") None)
                            (setResult data w) in
              match hist with
              | JArr entries =>
                  let newHist := JArr (insertHistory (trim q) entries) in
                  with_localStorage
                    (<[js "query_history" := JSON_stringify newHist]> (localStorage w1))
                    (setHistory newHist w1)
              | _ => failed TypeError_message w1
              end
          end
        else failed (Status status) w
    end.

(** The button is disabled while [loading || !query.trim()], so a click
    reaches [runQuery] only otherwise. *)
Definition clickRun (w : World) : World :=
  if running w || negb (nonEmpty (trim (query w))) then w else runQuery w.

(** [handleKeySubmit(e)] *)
Definition handleKeySubmit (key : jsstring) (shiftKey : bool) (w : World) : World :=
  if bool_decide (key = js "Enter") && negb shiftKey then runQuery w else w.

(** [onClear] of the history panel. *)
Definition clearHistory (w : World) : World :=
  with_localStorage (<[js "query_history" := js "[]"]> (localStorage w))
    (setHistory (JArr []) w).

(** *** FileUpload: the callbacks of the request *)

Definition BULLET : jsstring := [32; 8226; 32].

(** The message of the toast [xhr.onload] raises for a parsed body. *)
Definition upload_message (res : json) : jsstring :=
  if truthy (get_opt (Some res) (js "table_name"))
  then ToString_value (get_opt (Some res) (js "table_name")) ++ BULLET
       ++ (if nullish (get_opt (Some res) (js "row_count")) then js "?"
           else ToString_value (get_opt (Some res) (js "row_count")))
       ++ js " rows"
  else js "File uploaded".

(** [xhr.onload] *)
Definition xhr_onload (status : N) (responseText : jsstring) (w : World) : World :=
  let w1 := setUploading false w in
  setProgress 0
    (if ok status then
       match JSON_parse responseText with
       | Normal res =>
           refreshTables
             (add (toast_success (js "Upload complete") (Some (upload_message res))) w1)
       | Throw _ =>
           add (toast_error (js "Unexpected response")
                  (js "Upload succeeded but response could not be parsed.")) w1
       end
     else add (toast_error (js "Upload failed") (Status status)) w1).

(** [xhr.onerror] *)
Definition xhr_onerror (w : World) : World :=
  add (toast_error (js "Network error") (js "Could not upload file."))
    (setProgress 0 (setUploading false w)).

(** *** App: start-up *)

(** The initialiser of [history]:
    [try { return JSON.parse(localStorage.getItem('query_history') || '[]') }
     catch { return [] }] *)
Definition history_initializer (store : gmap jsstring jsstring) : completion json :=
  try_catch
    (JSON_parse
       (match store !! js "query_history" with
        | Some text => if nonEmpty text then text else js "[]"
        | None => js "[]"
        end))
    (fun _ => Normal (JArr [])).

(** [QueryHistory] with [items] the history: [items.length] throws on
    [null]; a falsy [length] renders nothing; otherwise [items.map] is
    called, which only an array has, and every entry becomes the child of a
    button. *)
Definition QueryHistory (items : json) : completion unit :=
  match items with
  | JNull => Throw TypeError_message
  | JArr entries =>
      if forallb React_child entries then Normal ()
      else Throw (React_error items)
  | _ =>
      if truthy (get items (js "length")) then Throw TypeError_message
      else Normal ()
  end.

(** The state after the first render and its effects.  The initialisers of
    [useState] run, and the page is rendered: with no tables, selection,
    schema or result yet, only [QueryHistory] depends on what was stored.
    When the render throws, React unmounts the page and no effect runs.
    Otherwise the effect of [useDarkMode] writes the theme, the mount effect
    calls [refreshTables()], and the effect on [selectedTable] finds [null]
    and does nothing.  The clock starts at the first render. *)
Definition mount (store : gmap jsstring jsstring) : completion World :=
  cbind (history_initializer store) (fun h =>
  cbind (QueryHistory h) (fun _ =>
    Normal (refreshTables
      {| toasts := []; tables := JArr []; selectedTable := None;
         schema := JNull; loadingTables := false; loadingSchema := false;
         query := []; running := false; result := JNull; history := h;
         uploading := false; progress := 0;
         localStorage :=
           useDarkMode_effect (useDarkMode_initializer true store prefers_dark) store;
         now := 0; timers := []; randoms := 0; next_request := 0;
         pending := []; sent := [] |}))).

(** *** Events *)

(** What the user and the browser do to the page. *)
Inductive event : Type :=
  | SelectTable (t : table)
  | ClickDelete (t : table) (confirmed : bool)
  | ClickRefresh
  | SetQuery (text : jsstring)
  | ClickRun
  | KeyDown (key : jsstring) (shiftKey : bool)
  | ClickClear
  | ClickDismiss (id : jsstring)
  | ChooseFiles (files : list file)
  | Settle (rid : nat) (r : response)
  | XhrLoad (rid : nat) (status : N) (responseText : jsstring)
  | XhrError (rid : nat)
  | Elapse (dt : N).

Fixpoint parked (rid : nat) (l : list (nat * kont)) : option kont :=
  match l with
  | [] => None
  | (i, k) :: rest => if bool_decide (i = rid) then Some k else parked rid rest
  end.

(** The code that waits for request [rid], if it is in flight. *)
Definition waiting (rid : nat) (w : World) : option kont :=
  parked rid (pending w).

Definition forget (rid : nat) (w : World) : World :=
  with_pending (filter (fun p => fst p ≠ rid) (pending w)) w.

(** The code behind an [await] runs with what the request settled to. *)
Definition resume (k : kont) (r : response) (w : World) : World :=
  match k with
  | K_refreshTables => refreshTables_settle r w
  | K_fetchSchema => fetchSchema_settle r w
  | K_deleteTable tbl sel => deleteTable_settle tbl sel r w
  | K_deleteTable_refreshed tbl sel => deleteTable_refreshed tbl sel r w
  | K_runQuery q hist => runQuery_settle q hist r w
  | K_upload => w
  end.

(** A [fetch] settles.  An upload is not a [fetch]: it settles through
    the callbacks of its request. *)
Definition settle (rid : nat) (r : response) (w : World) : World :=
  match waiting rid w with
  | Some K_upload | None => w
  | Some k => resume k r (forget rid w)
  end.

(** One event and the state it leaves.  The state is all a step describes:
    a render that throws on the new state, as [SchemaView] does for a
    column that is [null], ends the page and is no step. *)
Definition step (w : World) (e : event) : World :=
  match e with
  | SelectTable t => selectTable t w
  | ClickDelete t confirmed => deleteTable t confirmed w
  | ClickRefresh => refreshTables w
  | SetQuery text => setQuery text w
  | ClickRun => clickRun w
  | KeyDown key shiftKey => handleKeySubmit key shiftKey w
  | ClickClear => clearHistory w
  | ClickDismiss id => remove id w
  | ChooseFiles files => handleFiles files w
  | Settle rid r => settle rid r w
  | XhrLoad rid status text =>
      match waiting rid w with
      | Some K_upload => xhr_onload status text (forget rid w)
      | _ => w
      end
  | XhrError rid =>
      match waiting rid w with
      | Some K_upload => xhr_onerror (forget rid w)
      | _ => w
      end
  | Elapse dt => elapse dt w
  end.

(** The state after a sequence of events. *)
Definition run (w : World) (es : list event) : World := foldl step w es.

End Components.
End App.

(** ** The result table and the schema table *)

(** *** Results *)

(** [o[i]] for an index [i]. *)
Definition at_index (o : json) (i : nat) : jsvalue :=
  match o with
  | JArr items => items !! i
  | JStr s => (fun c => JStr [c]) <$> s !! i
  | JObj fields => assoc (decimal (N.of_nat i)) fields
  | _ => None
  end.




(** *** SchemaView *)

(** [c.name || c[0] || ''] and [c.type || c[1] || ''], the two children of
    the row shown for a column [c] of the schema; [None] when [c] is [null]
    and the read throws a [TypeError]. *)
Definition SchemaView_name (c : json) : option json :=
  match c with
  | JNull => None
  | _ =>
      Some (default (JStr [])
              (js_or (js_or (get c (js "name")) (at_index c 0)) (Some (JStr []))))
  end.

Definition SchemaView_type (c : json) : option json :=
  match c with
  | JNull => None
  | _ =>
      Some (default (JStr [])
              (js_or (js_or (get c (js "type")) (at_index c 1)) (Some (JStr []))))
  end.

(** The rows [SchemaView] renders for a schema that is not falsy, from
    [schema.columns?.map(...)]: none when [columns] is [null] or
    [undefined]; [None] when rendering throws, because [columns] is another
    value without [map], a column is [null], or a child is an object. *)
Definition SchemaView (schema : json) : option (list (json * json)) :=
  match get schema (js "columns") with
  | None | Some JNull => Some []
  | Some (JArr columns) =>
      mapM (fun c =>
              name ← SchemaView_name c;
              type ← SchemaView_type c;
              if React_child name && React_child type then Some (name, type)
              else None)
           columns
  | Some _ => None
  end.

(** ** A reader of comma-separated values *)

(** The reader the export is measured against, after RFC 4180: a record is
    a line, its fields are separated by commas, a line ends with CR LF or
    with a bare LF, and the line break after the last record is optional.
    A field that starts with a double quote runs to the closing quote and
    may hold commas, line breaks and doubled quotes, which stand for one
    quote.  A CR that no LF follows is kept as data. *)
Module CsvReader.

Inductive mode : Type :=
  | RecordStart   (* nothing of the record was read yet *)
  | FieldStart    (* after a comma *)
  | Unquoted      (* inside a field without quotes *)
  | Quoted        (* inside a quoted field *)
  | QuoteSeen     (* a quote inside a quoted field: its end, or half of a doubled quote *)
  | CRSeen.       (* a CR outside quotes: a line break if LF follows *)

(** [field] is the field read so far, [record] the fields of the record
    before it. *)
Fixpoint read (m : mode) (field : jsstring) (record : list jsstring)
    (s : jsstring) : list (list jsstring) :=
  match s with
  | [] =>
      match m with
      | RecordStart => []
      | CRSeen => [record ++ [field ++ [Chars.CR]]]
      | _ => [record ++ [field]]
      end
  | c :: s' =>
      match m with
      | RecordStart | FieldStart =>
          if c =? Chars.DQUOTE then read Quoted [] record s'
          else if c =? Chars.COMMA then read FieldStart [] (record ++ [[]]) s'
          else if c =? Chars.LF then (record ++ [[]]) :: read RecordStart [] [] s'
          else if c =? Chars.CR then read CRSeen [] record s'
          else read Unquoted [c] record s'
      | Unquoted =>
          if c =? Chars.COMMA then read FieldStart [] (record ++ [field]) s'
          else if c =? Chars.LF then (record ++ [field]) :: read RecordStart [] [] s'
          else if c =? Chars.CR then read CRSeen field record s'
          else read Unquoted (field ++ [c]) record s'
      | Quoted =>
          if c =? Chars.DQUOTE then read QuoteSeen field record s'
          else read Quoted (field ++ [c]) record s'
      | QuoteSeen =>
          if c =? Chars.DQUOTE then read Quoted (field ++ [Chars.DQUOTE]) record s'
          else if c =? Chars.COMMA then read FieldStart [] (record ++ [field]) s'
          else if c =? Chars.LF then (record ++ [field]) :: read RecordStart [] [] s'
          else if c =? Chars.CR then read CRSeen field record s'
          else read Unquoted (field ++ [c]) record s'
      | CRSeen =>
          if c =? Chars.LF then (record ++ [field]) :: read RecordStart [] [] s'
          else if c =? Chars.COMMA
          then read FieldStart [] (record ++ [field ++ [Chars.CR]]) s'
          else if c =? Chars.CR then read CRSeen (field ++ [Chars.CR]) record s'
          else read Unquoted (field ++ [Chars.CR; c]) record s'
      end
  end.

Definition parse (text : jsstring) : list (list jsstring) :=
  read RecordStart [] [] text.

End CsvReader.

(** The strings of the cells [exportCsv] writes: the grid a reader should
    give back. *)
Definition csvStrings (inherited : members) (cols rows : list json)
  : option (list (list jsstring)) :=
  map (map cellString) <$> csvGrid inherited cols rows.

(** The quoting of [exportCsv] on the string of a cell. *)
Definition quoteCell (s : jsstring) : jsstring :=
  if includes s Chars.COMMA || includes s Chars.LF || includes s Chars.DQUOTE
  then [Chars.DQUOTE] ++ doubleQuotes s ++ [Chars.DQUOTE]
  else s.

Definition rowText (cells : list jsstring) : jsstring :=
  join [Chars.COMMA] (map quoteCell cells).

(** A code unit that means nothing to the reader. *)
Definition plain (c : N) : Prop :=
  c ≠ Chars.COMMA ∧ c ≠ Chars.LF ∧ c ≠ Chars.DQUOTE ∧ c ≠ Chars.CR.

(** Where the reader stands after a cell and what follows it. *)
Definition starts (m : CsvReader.mode) : Prop := m = CsvReader.RecordStart ∨ m = CsvReader.FieldStart.

(** A grid the reader gives back: every row has a cell, no cell holds a
    carriage return, and the last row is not a single empty cell. *)
Definition readable (grid : list (list jsstring)) : Prop :=
  Forall (fun r => r ≠ [] ∧ Forall (fun s => Chars.CR ∉ s) r) grid
  ∧ last grid ≠ Some [[]].

(** ** Words of the specification *)



(** A run fails when the request is rejected by the transport or answered
    with a status outside 200 to 299. *)
Definition failed (r : response) : bool :=
  match r with
  | Rejected _ => true
  | Responded status _ => negb (App.ok status)
  end.

(** The status or error detail of a failed run. *)
Definition failure_detail (r : response) : jsstring :=
  match r with
  | Rejected m => m
  | Responded status _ => App.Status status
  end.

(** A history as the specification wants it: a list without duplicates of
    at most ten entries. *)
Definition bounded_history (h : json) : Prop :=
  ∃ entries, h = JArr entries ∧ NoDup entries ∧ (length entries ≤ 10)%nat.

(** The history on display is such a list, and so is every history a run
    in flight took along. *)
Definition history_invariant (w : World) : Prop :=
  bounded_history (history w)
  ∧ Forall (fun p => match snd p with
                     | K_runQuery _ h => bounded_history h
                     | _ => True
                     end) (pending w).

(** A toast is on display. *)
Definition shown (id : jsstring) (w : World) : Prop :=
  ∃ t, t ∈ toasts w ∧ toast_id t = id.

(** Requests are numbered in the order they leave: what is in flight was
    issued before the next number. *)
Definition issued_in_order (w : World) : Prop :=
  Forall (fun p => (fst p < next_request w)%nat) (pending w).

Import App (event, SelectTable, ClickDelete, ClickRefresh, SetQuery, ClickRun, KeyDown,
  ClickClear, ClickDismiss, ChooseFiles, Settle, XhrLoad, XhrError, Elapse).

(** The state in which request [r] has left and nothing awaits it any
    more. *)
Definition issued (r : request) (w : World) : World :=
  with_sent (sent w ++ [r]) (with_next_request (S (next_request w)) w).

(** ** An instance of the browser for the examples *)

Module Sample.

Definition sales_text : jsstring :=
  js "{" ++ [Chars.DQUOTE] ++ js "table_name" ++ [Chars.DQUOTE] ++ js ":"
  ++ [Chars.DQUOTE] ++ js "sales" ++ [Chars.DQUOTE] ++ js ","
  ++ [Chars.DQUOTE] ++ js "row_count" ++ [Chars.DQUOTE] ++ js ":120}".

Definition sales : json :=
  JObj [(js "table_name", JStr (js "sales")); (js "row_count", JNum (js "120"))].

(** A reader that knows the two JSON texts of the examples and refuses
    every other text. *)
Definition JSON_parse (text : jsstring) : completion json :=
  if bool_decide (text = js "[]") then Normal (JArr [])
  else if bool_decide (text = sales_text) then Normal sales
  else Throw (js "Unexpected token").

Definition quoted (s : jsstring) : jsstring :=
  [Chars.DQUOTE] ++ s ++ [Chars.DQUOTE].

(** A writer for strings without quotes, backslashes or control
    characters, arrays of them and objects of them. *)
Fixpoint JSON_stringify (v : json) : jsstring :=
  match v with
  | JNull => js "null"
  | JBool true => js "true"
  | JBool false => js "false"
  | JNum r => r
  | JStr s => quoted s
  | JArr items => js "[" ++ join [Chars.COMMA] (map JSON_stringify items) ++ js "]"
  | JObj fields =>
      js "{"
      ++ join [Chars.COMMA]
           (map (fun kv => quoted (fst kv) ++ js ":" ++ JSON_stringify (snd kv)) fields)
      ++ js "}"
  end.

Definition random_id (n : nat) : jsstring := js "t" ++ decimal (N.of_nat n).

Definition TypeError_message : jsstring := js "history.filter is not a function".

(** A system that prefers the light theme. *)
Definition prefers_dark : bool := false.

Definition React_error (child : json) : jsstring :=
  js "Objects are not valid as a React child".

(** The text V8 prints for a built-in function. *)
Definition native (name : jsstring) : jsstring :=
  js "function " ++ name ++ js "() { [native code] }".

Definition Object_methods : list jsstring :=
  map js ["__defineGetter__"; "__defineSetter__"; "hasOwnProperty";
          "__lookupGetter__"; "__lookupSetter__"; "isPrototypeOf";
          "propertyIsEnumerable"; "toString"; "valueOf"; "toLocaleString"]%string.

Definition Array_methods : list jsstring :=
  map js ["at"; "concat"; "copyWithin"; "fill"; "find"; "findIndex";
          "findLast"; "findLastIndex"; "lastIndexOf"; "pop"; "push";
          "reverse"; "shift"; "unshift"; "slice"; "sort"; "splice";
          "includes"; "indexOf"; "join"; "keys"; "entries"; "values";
          "forEach"; "filter"; "flat"; "flatMap"; "map"; "every"; "some";
          "reduce"; "reduceRight"; "toReversed"; "toSorted"; "toSpliced";
          "with"]%string.

Definition String_methods : list jsstring :=
  map js ["anchor"; "at"; "big"; "blink"; "bold"; "charAt"; "charCodeAt";
          "codePointAt"; "concat"; "endsWith"; "fontcolor"; "fontsize";
          "fixed"; "includes"; "indexOf"; "isWellFormed"; "italics";
          "lastIndexOf"; "link"; "localeCompare"; "match"; "matchAll";
          "normalize"; "padEnd"; "padStart"; "repeat"; "replace";
          "replaceAll"; "search"; "slice"; "small"; "split"; "strike";
          "sub"; "substr"; "substring"; "sup"; "startsWith"; "toWellFormed";
          "trim"; "trimStart"; "trimLeft"; "trimEnd"; "trimRight";
          "toLocaleLowerCase"; "toLocaleUpperCase"; "toLowerCase";
          "toUpperCase"]%string.

Definition Number_methods : list jsstring :=
  map js ["toExponential"; "toFixed"; "toPrecision"]%string.

(** The members a JSON value inherits in V8, with the text [String] gives
    for each: a function prints as [native] of its name ([trimLeft] and
    [trimRight] are [trimStart] and [trimEnd] under another key), and
    [__proto__] is the prototype itself. *)
Definition inherited : members := fun r k =>
  let '(constructor, methods, prototype) :=
    match r with
    | JArr _ => (js "Array", Array_methods, [])
    | JStr _ => (js "String", String_methods, [])
    | JNum _ => (js "Number", Number_methods, js "0")
    | JBool _ => (js "Boolean", [], js "false")
    | _ => (js "Object", [], js "[object Object]")
    end in
  if bool_decide (k = js "constructor") then Some (native constructor)
  else if bool_decide (k = js "__proto__") then Some prototype
  else if bool_decide (k = js "trimLeft") && bool_decide (k ∈ methods)
       then Some (native (js "trimStart"))
  else if bool_decide (k = js "trimRight") && bool_decide (k ∈ methods)
       then Some (native (js "trimEnd"))
  else if bool_decide (k ∈ methods ++ Object_methods) then Some (native k)
  else None.

Definition step := App.step JSON_parse JSON_stringify random_id TypeError_message.
Definition run := App.run JSON_parse JSON_stringify random_id TypeError_message.

(** The page right after start-up with an empty store, before the first
    listing of the tables arrived; the light theme has been written. *)
Definition start : World :=
  App.refreshTables
    {| toasts := []; tables := JArr []; selectedTable := None;
       schema := JNull; loadingTables := false; loadingSchema := false;
       query := []; running := false; result := JNull; history := JArr [];
       uploading := false; progress := 0; localStorage := {[js "theme" := js "light"]};
       now := 0; timers := []; randoms := 0; next_request := 0;
       pending := []; sent := [] |}.

Definition tableA : table :=
  {| tref := 1; tval := JObj [(js "id", JStr (js "a")); (js "name", JStr (js "A"))] |}.
Definition tableB : table :=
  {| tref := 2; tval := JObj [(js "id", JStr (js "b")); (js "name", JStr (js "B"))] |}.

Definition schemaA : json :=
  JObj [(js "columns", JArr [JObj [(js "name", JStr (js "a1")); (js "type", JStr (js "int"))]])].

End Sample.

(** ** The pages of the examples *)

Module Scenario.

(** The page after a first query, [top 10], was answered with [first]. *)
Definition first : json :=
  JObj [(js "rows", JArr [JObj [(js "n", JNum (js "1"))]])].

Definition answered : World :=
  Sample.run Sample.start
    [SetQuery (js "top 10"); KeyDown (js "Enter") false;
     Settle 1 (Responded 200 (Normal first))].

(** The page while a query is in flight. *)
Definition in_flight : World :=
  Sample.run Sample.start [SetQuery (js "top 10"); KeyDown (js "Enter") false].

End Scenario.

Module Unkeyed.

(** Two tables that the listing gives without [id]. *)
Definition a : table := {| tref := 1; tval := JObj [(js "name", JStr (js "a"))] |}.
Definition b : table := {| tref := 2; tval := JObj [(js "name", JStr (js "b"))] |}.

(** Table [a] is selected and its schema on display. *)
Definition selected : World :=
  Sample.run Sample.start
    [Settle 0 (Responded 200 (Normal (JArr [tval a; tval b])));
     SelectTable a; Settle 1 (Responded 200 (Normal Sample.schemaA))].

(** Table [b] is deleted: confirmed, answered with 204, the list asked for
    again and answered. *)
Definition deleted : World :=
  Sample.run selected
    [ClickDelete b true;
     Settle 2 (Responded 204 (Throw (js "no body")));
     Settle 3 (Responded 200 (Normal (JArr [tval a])))].

End Unkeyed.

Module Refused.

Definition txt : file := {| file_type := []; file_name := js "data.txt" |}.

(** [data.txt] was refused at time 0: a toast with the first id is on
    display. *)
Definition refused : World := Sample.run Sample.start [ChooseFiles [txt]].

(** The toast was dismissed 2000 ms later. *)
Definition dismissed : World :=
  Sample.run refused [Elapse 2000; ClickDismiss (Sample.random_id 0)].

End Refused.

Module Sheet.

Definition cols : list json := [JStr (js "h")].

(** Two rows; the cell of the first ends in a carriage return. *)
Definition rows : list json :=
  [JObj [(js "h", JStr (js "a" ++ [Chars.CR]))]; JObj [(js "h", JStr (js "b"))]].

End Sheet.

(** ** Invariants of the page *)

(** Every toast on display has a timer that removes it within 6000 ms. *)
Definition toasts_scheduled (w : World) : Prop :=
  ∀ t, t ∈ toasts w →
    ∃ due, (due, toast_id t) ∈ timers w ∧ due ≤ now w + 6000.

(** An entry as a run writes it: a string that is not empty and has no
    white space at either end. *)
Definition tidy_entry (x : json) : Prop :=
  ∃ s, x = JStr s ∧ s ≠ [] ∧ trim s = s.

Definition tidy_entries (h : json) : Prop :=
  ∃ entries, h = JArr entries ∧ Forall tidy_entry entries.

(** The history holds such entries only, and so does the history that a
    run in flight took along; such a run has a text to record. *)
Definition history_tidy (w : World) : Prop :=
  tidy_entries (history w)
  ∧ Forall (fun p => match snd p with
                     | K_runQuery q h => nonEmpty (trim q) = true ∧ tidy_entries h
                     | _ => True
                     end) (pending w).


(** ** More pages for the examples *)

Module Tour.

(** A query of two spaces and a tabulator. *)
Definition blank : World := setQuery [32; 32; 9] Sample.start.

(** [data.txt] is refused, and 100 ms later a query is sent and answered
    with status 500: two toasts of different age. *)
Definition two_toasts : list event :=
  [ChooseFiles [Refused.txt]; Elapse 100; SetQuery (js "top 10");
   KeyDown (js "Enter") false; Settle 1 (Responded 500 (Throw (js "no body")))].

(** Two queries, the second with white space around it, both answered. *)
Definition two_queries : list event :=
  [SetQuery (js "top 10"); KeyDown (js "Enter") false;
   Settle 1 (Responded 200 (Normal Scenario.first));
   SetQuery (js "  count rows "); KeyDown (js "Enter") false;
   Settle 2 (Responded 200 (Normal Scenario.first))].

(** A table the listing gives with nothing to address it by. *)
Definition nameless : table := {| tref := 7; tval := JObj [(js "rows", JNum (js "3"))] |}.

(** Table A is selected. *)
Definition selectedA : World := Sample.run Sample.start [SelectTable Sample.tableA].

(** A listing that comes as an object. *)
Definition listing : response :=
  Responded 200 (Normal (JObj [(js "tables", JArr [tval Sample.tableA])])).

(** The page whose stored history was the text of an empty object. *)
Definition object_history : World :=
  setHistory (JObj []) (setQuery (js "top 10") Sample.start).


(** The text [JSON.stringify] gives for the history of the one entry
    [top 10], and a reader that knows it besides those of [Sample]. *)
Definition stored_text : jsstring :=
  js "[" ++ [Chars.DQUOTE] ++ js "top 10" ++ [Chars.DQUOTE] ++ js "]".

Definition JSON_parse (text : jsstring) : completion json :=
  if bool_decide (text = stored_text) then Normal (JArr [JStr (js "top 10")])
  else Sample.JSON_parse text.

(** A reader that knows the text [null] besides. *)
Definition null_reader (text : jsstring) : completion json :=
  if bool_decide (text = js "null") then Normal JNull else Sample.JSON_parse text.

(** A store that holds [stored_text]. *)
Definition stored : gmap jsstring jsstring := {[ js "query_history" := stored_text ]}.

(** The page with the query [top 10] typed. *)
Definition typed : World := setQuery (js "top 10") Sample.start.


End Tour.

(** ** What a step is made of *)

Section Footprint.

Variable JSON_stringify : json -> jsstring.
Variable random_id : nat -> jsstring.

(** What a run in flight took along is the query and the history of the
    state in which it started, and its query is not blank. *)
Definition snapshot (w : World) (k : kont) : Prop :=
  match k with
  | K_runQuery q h => q = query w ∧ h = history w ∧ nonEmpty (trim q) = true
  | _ => True
  end.

(** [updates w w'] holds when [w'] comes from [w] by the updates the
    handlers are made of: the plain setters, [add] and [remove] on the
    toasts, a request that leaves or settles, the two writes of the
    history, and the passing of time. *)
Inductive updates (w : World) : World → Prop :=
  | updates_none : updates w w
  | updates_setTables v w' : updates w w' → updates w (setTables v w')
  | updates_setSelectedTable v w' : updates w w' → updates w (setSelectedTable v w')
  | updates_setSchema v w' : updates w w' → updates w (setSchema v w')
  | updates_setLoadingTables v w' : updates w w' → updates w (setLoadingTables v w')
  | updates_setLoadingSchema v w' : updates w w' → updates w (setLoadingSchema v w')
  | updates_setQuery v w' : updates w w' → updates w (setQuery v w')
  | updates_setRunning v w' : updates w w' → updates w (setRunning v w')
  | updates_setResult v w' : updates w w' → updates w (setResult v w')
  | updates_setUploading v w' : updates w w' → updates w (setUploading v w')
  | updates_setProgress v w' : updates w w' → updates w (setProgress v w')
  | updates_add a w' : updates w w' → updates w (App.add random_id a w')
  | updates_remove id w' : updates w w' → updates w (App.remove id w')
  | updates_elapse dt w' : updates w w' → updates w (App.elapse dt w')
  | updates_fetch r k w' :
      snapshot w k → updates w w' → updates w (App.fetch r k w')
  | updates_forget rid w' : updates w w' → updates w (App.forget rid w')
  | updates_record rid q entries w' :
      App.waiting rid w = Some (K_runQuery q (JArr entries)) →
      updates w w' →
      updates w
        (with_localStorage
           (<[js "query_history"
              := JSON_stringify (JArr (insertHistory (trim q) entries))]>
              (localStorage w'))
           (setHistory (JArr (insertHistory (trim q) entries)) w'))
  | updates_clear w' :
      updates w w' →
      updates w
        (with_localStorage (<[js "query_history" := js "[]"]> (localStorage w'))
           (setHistory (JArr []) w')).

End Footprint.

(** * Properties *)

Import CsvReader.


Ltac in_order :=
  repeat (apply Forall_cons_2; [simpl; lia|]); apply Forall_nil_2.

(** ** Strings *)

Example trim_example : trim (js "  top 10 ") = js "top 10".
Proof. reflexivity. Qed.

Example endsWith_example : endsWith (toLowerCase (js "Sales.CSV")) (js ".csv") = true.
Proof. reflexivity. Qed.

Example decimal_example : decimal 404 = js "404".
Proof. reflexivity. Qed.

Example exportCsv_example :
  exportCsv Sample.inherited [JStr (js "name"); JStr (js "n")]
            [JObj [(js "name", JStr (js "Doe, John")); (js "n", JNum (js "3"))];
             JObj [(js "name", JNull)]]
  = Some (js "name,n" ++ [Chars.LF] ++ [Chars.DQUOTE] ++ js "Doe, John"
          ++ [Chars.DQUOTE] ++ js ",3" ++ [Chars.LF] ++ js ",").
Proof. vm_compute. reflexivity. Qed.

(** An array row is read by index and by [length], a string row by code
    unit, and a key that only a prototype knows gives the text of the
    built-in member; a [null] row makes the export throw. *)
Example exportCsv_rows_example :
  exportCsv Sample.inherited [JNum (js "0"); JStr (js "length"); JStr (js "map")]
            [JArr [JNum (js "7"); JNum (js "8")]; JStr (js "ab")]
  = Some (js "0,length,map" ++ [Chars.LF]
          ++ js "7,2,function map() { [native code] }" ++ [Chars.LF] ++ js "a,2,")
  ∧ exportCsv Sample.inherited [JStr (js "h")] [JObj []; JNull] = None.
Proof. vm_compute. split; reflexivity. Qed.

(** ** Lists and strings *)

Lemma insertHistory_unfold (text : jsstring) (entries : list json) :
  insertHistory text entries
  = JStr text :: take 9 (filter (fun x => strictNotEqual_string x text) entries).
Proof. reflexivity. Qed.

Lemma strictNotEqual_string_spec (x : json) (text : jsstring) :
  strictNotEqual_string x text ↔ x ≠ JStr text.
Proof.
  destruct x; simpl; try (split; [discriminate | done]).
  rewrite negb_True, bool_decide_spec. split; congruence.
Qed.

Lemma strictNotEqual_string_false (x : json) (text : jsstring) :
  strictNotEqual_string x text = false → x = JStr text.
Proof.
  destruct x; simpl; try discriminate.
  intros H%negb_false_iff%bool_decide_eq_true. congruence.
Qed.

Lemma filter_keeps_all {A} (P : A → Prop) `{!∀ x, Decision (P x)} (l : list A) :
  Forall P l → filter P l = l.
Proof.
  induction 1 as [|x l Hx _ IH]; [done|].
  rewrite filter_cons_True by done. by rewrite IH.
Qed.

Lemma insertHistory_NoDup (text : jsstring) (entries : list json) :
  NoDup entries → NoDup (insertHistory text entries).
Proof.
  intros Hnd. rewrite insertHistory_unfold. apply NoDup_cons. split.
  - intros Hin. eapply elem_of_sublist in Hin; [|apply sublist_take].
    apply list_elem_of_filter in Hin as [Hne _].
    by apply strictNotEqual_string_spec in Hne.
  - eapply sublist_NoDup; [|apply sublist_take]. by apply NoDup_filter.
Qed.

Lemma insertHistory_length (text : jsstring) (entries : list json) :
  (length (insertHistory text entries) ≤ 10)%nat.
Proof. unfold insertHistory. rewrite length_take. lia. Qed.

(** An entry that is present moves to the front: the new history holds the
    same entries as the old one. *)
Lemma insertHistory_present (text : jsstring) (entries : list json) :
  NoDup entries → JStr text ∈ entries → (length entries ≤ 10)%nat →
  insertHistory text entries ≡ₚ entries.
Proof.
  intros Hnd Hin Hlen. rewrite insertHistory_unfold.
  assert (Hlt : (length (filter (fun x => strictNotEqual_string x text) entries)
                 < length entries)%nat).
  { eapply length_filter_lt; [exact Hin|].
    rewrite strictNotEqual_string_spec. tauto. }
  rewrite take_ge by lia.
  apply NoDup_Permutation.
  - apply NoDup_cons. split; [|by apply NoDup_filter].
    rewrite list_elem_of_filter, strictNotEqual_string_spec. tauto.
  - done.
  - intros x. rewrite elem_of_cons, list_elem_of_filter. split.
    + intros [->|[_ Hx]]; done.
    + intros Hx. destruct (strictNotEqual_string x text) eqn:E.
      * right. done.
      * left. by apply strictNotEqual_string_false.
Qed.



(** ** The network *)

Lemma parked_None (rid : nat) (l : list (nat * kont)) :
  Forall (fun p => (fst p < rid)%nat) l → App.parked rid l = None.
Proof.
  induction 1 as [|[i k] l Hi _ IH]; [done|]. simpl in *.
  rewrite bool_decide_eq_false_2 by lia. exact IH.
Qed.

Lemma parked_app_fresh (rid : nat) (k : kont) (l : list (nat * kont)) :
  Forall (fun p => (fst p < rid)%nat) l → App.parked rid (l ++ [(rid, k)]) = Some k.
Proof.
  induction 1 as [|[i k'] l Hi _ IH]; simpl in *.
  - by rewrite bool_decide_eq_true_2.
  - rewrite bool_decide_eq_false_2 by lia. exact IH.
Qed.

Lemma forget_app_fresh (rid : nat) (k : kont) (l : list (nat * kont)) :
  Forall (fun p => (fst p < rid)%nat) l →
  filter (fun p => fst p ≠ rid) (l ++ [(rid, k)]) = l.
Proof.
  intros Hl. rewrite filter_app, filter_cons_False, filter_nil, app_nil_r by (simpl; tauto).
  apply filter_keeps_all. eapply Forall_impl; [exact Hl|]. simpl. lia.
Qed.

Lemma waiting_fetch (r : request) (k : kont) (w : World) :
  issued_in_order w → App.waiting (next_request w) (App.fetch r k w) = Some k.
Proof. intros Hw. unfold App.waiting. simpl. by apply parked_app_fresh. Qed.

Lemma forget_fetch (r : request) (k : kont) (w : World) :
  issued_in_order w → App.forget (next_request w) (App.fetch r k w) = issued r w.
Proof.
  intros Hw. destruct w. unfold App.forget, App.fetch, issued. simpl in *.
  unfold with_pending, with_sent, with_next_request. simpl. f_equal.
  by apply forget_app_fresh.
Qed.

(** ** File names *)




(** ** The CSV export and the reader *)

Lemma csvCell_quoteCell (x : cell) : csvCell x = quoteCell (cellString x).
Proof. reflexivity. Qed.

Lemma exportCsv_rowText (inherited : members) (cols rows : list json) :
  exportCsv inherited cols rows
  = (fun cells => join [Chars.LF] (map rowText cells))
      <$> csvStrings inherited cols rows.
Proof.
  unfold exportCsv, csvStrings, rowText.
  destruct (csvGrid inherited cols rows) as [grid|]; [|done].
  cbn [fmap option_fmap option_map]. f_equal. rewrite List.map_map. f_equal.
  apply List.map_ext. intros r. by rewrite List.map_map.
Qed.

(** The grid has the header and one row for each row, and every row has one
    cell for each column. *)
Lemma csvGrid_width (inherited : members) (cols rows : list json)
    (grid : list (list cell)) :
  csvGrid inherited cols rows = Some grid →
  length grid = S (length rows)
  ∧ Forall (fun r => length r = length cols) grid.
Proof.
  unfold csvGrid.
  destruct (mapM (fun r => mapM (member inherited r) cols) rows) as [body|] eqn:Hbody;
    [|done].
  cbn [fmap option_fmap option_map]. intros [= <-].
  split.
  - cbn [length]. f_equal. symmetry. by eapply length_mapM.
  - apply Forall_cons. split; [by rewrite length_map|].
    apply mapM_Some in Hbody. apply Forall_forall. intros cells Hcells.
    apply list_elem_of_lookup in Hcells as [i Hi].
    destruct (Forall2_lookup_r _ _ _ _ _ Hbody Hi) as (r & _ & Hr).
    symmetry. by eapply length_mapM.
Qed.

Lemma csvStrings_shape (inherited : members) (cols rows : list json)
    (cells : list (list jsstring)) :
  csvStrings inherited cols rows = Some cells →
  length cells = S (length rows)
  ∧ Forall (fun r => length r = length cols) cells.
Proof.
  unfold csvStrings.
  destruct (csvGrid inherited cols rows) as [grid|] eqn:Hgrid; [|done].
  cbn [fmap option_fmap option_map]. intros [= <-].
  destruct (csvGrid_width _ _ _ _ Hgrid) as [Hlen Hwidth].
  split; [by rewrite length_map|].
  apply Forall_map. eapply Forall_impl; [exact Hwidth|].
  intros r Hr. cbn beta. by rewrite length_map.
Qed.


Lemma read_plain_unit (c : N) (field : jsstring) (record : list jsstring) (s : jsstring) :
  plain c →
  read Unquoted field record (c :: s) = read Unquoted (field ++ [c]) record s
  ∧ read RecordStart [] record (c :: s) = read Unquoted [c] record s
  ∧ read FieldStart [] record (c :: s) = read Unquoted [c] record s.
Proof.
  intros (Hc & Hl & Hq & Hr). simpl.
  by rewrite (proj2 (N.eqb_neq _ _) Hc), (proj2 (N.eqb_neq _ _) Hl),
    (proj2 (N.eqb_neq _ _) Hq), (proj2 (N.eqb_neq _ _) Hr).
Qed.

Lemma read_unquoted (s field : jsstring) (record : list jsstring) (rest : jsstring) :
  Forall plain s →
  read Unquoted field record (s ++ rest) = read Unquoted (field ++ s) record rest.
Proof.
  intros Hs. revert field. induction Hs as [|c s Hc _ IH]; intros field.
  - by rewrite app_nil_r.
  - rewrite <- app_comm_cons.
    destruct (read_plain_unit c field record (s ++ rest) Hc) as [-> _].
    rewrite IH. by rewrite <- app_assoc.
Qed.

Lemma read_quoted (s field : jsstring) (record : list jsstring) (rest : jsstring) :
  read Quoted field record (doubleQuotes s ++ Chars.DQUOTE :: rest)
  = read QuoteSeen (field ++ s) record rest.
Proof.
  revert field. induction s as [|c s IH]; intros field.
  - simpl. by rewrite app_nil_r.
  - unfold doubleQuotes. simpl. destruct (N.eqb_spec c Chars.DQUOTE) as [->|Hc].
    + simpl. fold (doubleQuotes s). rewrite IH. by rewrite <- app_assoc.
    + simpl. rewrite (proj2 (N.eqb_neq _ _) Hc). fold (doubleQuotes s).
      rewrite IH. by rewrite <- app_assoc.
Qed.

(** A string without comma, line feed, quote and carriage return is plain. *)
Lemma unquoted_plain (s : jsstring) :
  includes s Chars.COMMA || includes s Chars.LF || includes s Chars.DQUOTE = false →
  Chars.CR ∉ s → Forall plain s.
Proof.
  unfold includes. rewrite !orb_false_iff, !bool_decide_eq_false.
  intros [[Hc Hl] Hq] Hr. apply Forall_forall. intros c Hin.
  repeat split; congruence.
Qed.

Lemma read_cell_comma (m : mode) (s : jsstring) (record : list jsstring) (rest : jsstring) :
  starts m → Chars.CR ∉ s →
  read m [] record (quoteCell s ++ Chars.COMMA :: rest)
  = read FieldStart [] (record ++ [s]) rest.
Proof.
  intros Hm Hr. unfold quoteCell.
  destruct (_ || _) eqn:Hq.
  - rewrite <- !app_assoc.
    transitivity (read Quoted [] record
                    (doubleQuotes s ++ Chars.DQUOTE :: Chars.COMMA :: rest)).
    { by destruct Hm as [-> | ->]. }
    by rewrite read_quoted.
  - pose proof (unquoted_plain s Hq Hr) as Hs. destruct Hs as [|c s Hc Hs].
    + by destruct Hm as [-> | ->].
    + rewrite <- app_comm_cons.
      destruct (read_plain_unit c [] record (s ++ Chars.COMMA :: rest) Hc)
        as (_ & H1 & H2).
      transitivity (read Unquoted [c] record (s ++ Chars.COMMA :: rest)).
      { by destruct Hm as [-> | ->]. }
      by rewrite read_unquoted.
Qed.

Lemma read_cell_line (m : mode) (s : jsstring) (record : list jsstring) (rest : jsstring) :
  starts m → Chars.CR ∉ s →
  read m [] record (quoteCell s ++ Chars.LF :: rest)
  = (record ++ [s]) :: read RecordStart [] [] rest.
Proof.
  intros Hm Hr. unfold quoteCell.
  destruct (_ || _) eqn:Hq.
  - rewrite <- !app_assoc.
    transitivity (read Quoted [] record
                    (doubleQuotes s ++ Chars.DQUOTE :: Chars.LF :: rest)).
    { by destruct Hm as [-> | ->]. }
    by rewrite read_quoted.
  - pose proof (unquoted_plain s Hq Hr) as Hs. destruct Hs as [|c s Hc Hs].
    + by destruct Hm as [-> | ->].
    + rewrite <- app_comm_cons.
      destruct (read_plain_unit c [] record (s ++ Chars.LF :: rest) Hc)
        as (_ & H1 & H2).
      transitivity (read Unquoted [c] record (s ++ Chars.LF :: rest)).
      { by destruct Hm as [-> | ->]. }
      by rewrite read_unquoted.
Qed.

Lemma read_cell_end (m : mode) (s : jsstring) (record : list jsstring) :
  starts m → Chars.CR ∉ s → m = FieldStart ∨ s ≠ [] →
  read m [] record (quoteCell s) = [record ++ [s]].
Proof.
  intros Hm Hr Hlast. unfold quoteCell.
  destruct (_ || _) eqn:Hq.
  - transitivity (read Quoted [] record (doubleQuotes s ++ Chars.DQUOTE :: [])).
    { by destruct Hm as [-> | ->]. }
    by rewrite read_quoted.
  - pose proof (unquoted_plain s Hq Hr) as Hs. destruct Hs as [|c s Hc Hs].
    + by destruct Hlast as [-> | ?].
    + destruct (read_plain_unit c [] record s Hc) as (_ & H1 & H2).
      transitivity (read Unquoted [c] record s).
      { by destruct Hm as [-> | ->]. }
      rewrite <- (app_nil_r s) at 1. by rewrite read_unquoted.
Qed.

Lemma rowText_cons (c : jsstring) (c' : jsstring) (cells : list jsstring) :
  rowText (c :: c' :: cells) = quoteCell c ++ Chars.COMMA :: rowText (c' :: cells).
Proof. reflexivity. Qed.

Lemma read_row_line (cells : list jsstring) (m : mode) (record : list jsstring)
    (rest : jsstring) :
  starts m → cells ≠ [] → Forall (fun s => Chars.CR ∉ s) cells →
  read m [] record (rowText cells ++ Chars.LF :: rest)
  = (record ++ cells) :: read RecordStart [] [] rest.
Proof.
  intros Hm Hne Hcr. revert m record Hm.
  induction Hcr as [|c cells Hc Hcells IH]; [done|]. intros m record Hm.
  destruct cells as [|c' cells].
  - by apply read_cell_line.
  - rewrite rowText_cons, <- app_assoc, <- app_comm_cons.
    rewrite read_cell_comma by done.
    rewrite IH by (done || by right). by rewrite <- app_assoc.
Qed.

Lemma read_row_end (cells : list jsstring) (m : mode) (record : list jsstring) :
  starts m → cells ≠ [] → Forall (fun s => Chars.CR ∉ s) cells →
  m = FieldStart ∨ cells ≠ [[]] →
  read m [] record (rowText cells) = [record ++ cells].
Proof.
  intros Hm Hne Hcr. revert m record Hm.
  induction Hcr as [|c cells Hc Hcells IH]; [done|]. intros m record Hm Hlast.
  destruct cells as [|c' cells].
  - apply read_cell_end; [done..|]. destruct Hlast as [?|?]; [by left|].
    right. congruence.
  - rewrite rowText_cons, read_cell_comma by done.
    rewrite (IH ltac:(done) FieldStart (record ++ [c]) (or_intror eq_refl)
               (or_introl eq_refl)).
    by rewrite <- app_assoc.
Qed.

Lemma parse_rows (grid : list (list jsstring)) :
  grid ≠ [] → readable grid →
  parse (join [Chars.LF] (map rowText grid)) = grid.
Proof.
  unfold parse. intros Hne [Hrows Hlast].
  induction Hrows as [|r grid [Hr Hcr] Hrows IH]; [done|].
  destruct grid as [|r' grid].
  - simpl. rewrite read_row_end; [done|by left|done|done|].
    right. intros ->. by apply Hlast.
  - change (join [Chars.LF] (map rowText (r :: r' :: grid)))
      with (rowText r ++ Chars.LF :: join [Chars.LF] (map rowText (r' :: grid))).
    rewrite read_row_line by (done || by left). simpl. f_equal. by apply IH.
Qed.

(** Where the export can be read back: at least one column, no carriage
    return in a cell, and the last row not a single empty cell. *)
Lemma exportCsv_round_trip (inherited : members) (cols rows : list json)
    (cells : list (list jsstring)) :
  cols ≠ [] →
  csvStrings inherited cols rows = Some cells →
  Forall (Forall (fun s => Chars.CR ∉ s)) cells →
  last cells ≠ Some [[]] →
  parse <$> exportCsv inherited cols rows = Some cells.
Proof.
  intros Hcols Hcells Hcr Hlast. rewrite exportCsv_rowText, Hcells.
  cbn [fmap option_fmap option_map]. f_equal. apply parse_rows; [|split; [|done]].
  - intros ->. by destruct (csvStrings_shape _ _ _ _ Hcells) as [? _].
  - destruct (csvStrings_shape _ _ _ _ Hcells) as [_ Hwidth].
    apply Forall_forall. intros r Hr. split.
    + eapply Forall_forall in Hwidth; [|exact Hr]. intros ->. by destruct cols.
    + by eapply Forall_forall in Hcr.
Qed.

(** ** The toast queue *)

Lemma filter_idemp {A} (P : A → Prop) `{!∀ x, Decision (P x)} (l : list A) :
  filter P (filter P l) = filter P l.
Proof.
  apply filter_keeps_all, Forall_forall. intros x Hx.
  by apply list_elem_of_filter in Hx as [? _].
Qed.

Lemma remove_idemp (id : jsstring) (w : World) :
  App.remove id (App.remove id w) = App.remove id w.
Proof. unfold App.remove, setToasts. simpl. by rewrite filter_idemp. Qed.

Lemma remove_not_shown (id : jsstring) (w : World) : ¬ shown id (App.remove id w).
Proof.
  intros (t & Ht & Hid). simpl in Ht.
  by apply list_elem_of_filter in Ht as [? _].
Qed.

(** The callbacks of the timers in [due] have run: what is left of the
    toasts are those with none of their ids. *)
Lemma callbacks_run (due : list (N * jsstring)) (w : World) :
  let w' := foldl (fun v k => App.remove (snd k) v) w due in
  toasts w' = filter (fun t => toast_id t ∉ (snd <$> due)) (toasts w)
  ∧ timers w' = timers w ∧ now w' = now w.
Proof.
  revert w. induction due as [|k due IH]; intros w; simpl.
  - split; [|done]. symmetry. apply filter_keeps_all, Forall_forall.
    intros t _. apply not_elem_of_nil.
  - destruct (IH (App.remove (snd k) w)) as (-> & -> & ->). split; [|done].
    simpl. rewrite list_filter_filter. apply list_filter_iff.
    intros t. rewrite not_elem_of_cons. tauto.
Qed.

Lemma elapse_toasts (dt : N) (w : World) :
  toasts (App.elapse dt w)
  = filter (fun t => toast_id t
                     ∉ (snd <$> filter (fun k => fst k ≤ now w + dt) (timers w)))
      (toasts w).
Proof. unfold App.elapse. by destruct (callbacks_run
  (filter (fun k => fst k ≤ now w + dt) (timers w))
  (with_now (now w + dt)
     (with_timers (filter (fun k => ¬ fst k ≤ now w + dt) (timers w)) w)))
  as (-> & _). Qed.

Lemma elapse_timers (dt : N) (w : World) :
  timers (App.elapse dt w) = filter (fun k => ¬ fst k ≤ now w + dt) (timers w).
Proof. unfold App.elapse. by destruct (callbacks_run
  (filter (fun k => fst k ≤ now w + dt) (timers w))
  (with_now (now w + dt)
     (with_timers (filter (fun k => ¬ fst k ≤ now w + dt) (timers w)) w)))
  as (_ & -> & _). Qed.

Section Properties.

Variable JSON_parse : jsstring -> completion json.
Variable JSON_stringify : json -> jsstring.
Variable random_id : nat -> jsstring.
Variable TypeError_message : jsstring.
Variable prefers_dark : bool.
Variable React_error : json -> jsstring.

Local Abbreviation add := (App.add random_id).
Local Abbreviation handleFiles := (App.handleFiles random_id).
Local Abbreviation runQuery := (App.runQuery JSON_stringify).
Local Abbreviation runQuery_settle := (App.runQuery_settle JSON_stringify random_id TypeError_message).
Local Abbreviation resume := (App.resume JSON_stringify random_id TypeError_message).
Local Abbreviation settle := (App.settle JSON_stringify random_id TypeError_message).
Local Abbreviation step := (App.step JSON_parse JSON_stringify random_id TypeError_message).
Local Abbreviation run := (App.run JSON_parse JSON_stringify random_id TypeError_message).
Local Abbreviation history_initializer := (App.history_initializer JSON_parse).
Local Abbreviation mount := (App.mount JSON_parse TypeError_message prefers_dark React_error).
Local Abbreviation xhr_onload := (App.xhr_onload JSON_parse random_id).

Lemma settle_fetch (req : request) (k : kont) (r : response) (w : World) :
  issued_in_order w → k ≠ K_upload →
  settle (next_request w) r (App.fetch req k w) = resume k r (issued req w).
Proof.
  intros Hw Hk. unfold App.settle.
  rewrite waiting_fetch, forget_fetch by done. by destruct k.
Qed.

(** *** Start-up *)

(** C10: the initialiser of the history never throws, whatever the store
    holds.  With no stored history, and with a stored text that
    [JSON.parse] refuses, it yields the empty list, and the page starts
    with that: the first render succeeds and the history is empty. *)
Theorem history_initializer_never_throws (store : gmap jsstring jsstring) :
  JSON_parse (js "[]") = Normal (JArr []) →
  (∃ h, history_initializer store = Normal h)
  ∧ (store !! js "query_history" = None →
     history_initializer store = Normal (JArr [])
     ∧ ∃ w, mount store = Normal w ∧ history w = JArr [])
  ∧ (∀ text m, store !! js "query_history" = Some text →
       JSON_parse text = Throw m →
       history_initializer store = Normal (JArr [])
       ∧ ∃ w, mount store = Normal w ∧ history w = JArr []).
Proof.
  intros Hempty.
  assert (Hmount : history_initializer store = Normal (JArr []) →
                   history_initializer store = Normal (JArr [])
                   ∧ ∃ w, mount store = Normal w ∧ history w = JArr []).
  { intros Hinit. split; [done|]. unfold App.mount. rewrite Hinit.
    cbn [cbind App.QueryHistory forallb]. eexists. split; reflexivity. }
  split; [|split].
  - clear Hempty Hmount. unfold App.history_initializer, try_catch.
    destruct (JSON_parse _); eauto.
  - intros Hnone. apply Hmount. unfold App.history_initializer.
    by rewrite Hnone, Hempty.
  - intros text m Hsome Hthrow. apply Hmount. unfold App.history_initializer.
    rewrite Hsome. destruct text; simpl.
    + by rewrite Hempty.
    + by rewrite Hthrow.
Qed.

(** *** Upload *)


(** *** Queries *)

Lemma runQuery_fetch (w : World) :
  nonEmpty (trim (query w)) = true →
  runQuery w
  = App.fetch
      (POST_query (JSON_stringify (JObj [(js "query", JStr (trim (query w)))])))
      (K_runQuery (query w) (history w))
      (setResult JNull (setRunning true w)).
Proof. intros H. unfold App.runQuery. by rewrite H. Qed.

Lemma runQuery_then_settle (r : response) (w : World) :
  issued_in_order w → nonEmpty (trim (query w)) = true →
  settle (next_request w) r (runQuery w)
  = runQuery_settle (query w) (history w) r
      (issued
         (POST_query (JSON_stringify (JObj [(js "query", JStr (trim (query w)))])))
         (setResult JNull (setRunning true w))).
Proof.
  intros Hw Hq. rewrite runQuery_fetch by done.
  change (next_request w) with (next_request (setResult JNull (setRunning true w))).
  by rewrite settle_fetch.
Qed.


(** With a codec that reads back what it writes, the history written by a
    successful query is the history the next start of the page loads. *)
Lemma history_survives_reload
    (entries : list json) (status : N) (data : json) (w : World) :
  (∀ v, JSON_parse (JSON_stringify v) = Normal v) →
  (∀ v, JSON_stringify v ≠ []) →
  issued_in_order w →
  history w = JArr entries →
  nonEmpty (trim (query w)) = true →
  App.ok status = true →
  let w' := settle (next_request w) (Responded status (Normal data)) (runQuery w) in
  history_initializer (localStorage w') = Normal (history w').
Proof.
  intros Hcodec Htext Hw Hh Hq Hok w'. subst w'.
  rewrite runQuery_then_settle by done.
  unfold App.runQuery_settle, App.history_initializer. rewrite Hok, Hh. simpl.
  rewrite lookup_insert_eq.
  destruct (JSON_stringify _) eqn:Hs; [by apply Htext in Hs|].
  simpl. rewrite <- Hs. by rewrite Hcodec.
Qed.

(** C2, as the code has it: the failure of a run, in whatever state it
    arrives, leaves the result as it is at that moment, raises exactly one
    toast [Query failed] with the status or the error message, ends the
    running state and leaves the history alone.  The result that was on
    display before the run is not brought back: the run cleared it when it
    began, so that a run that fails with nothing in between leaves the
    result empty. *)
Theorem failed_run_leaves_result_cleared
    (rid : nat) (q : jsstring) (hist : json) (r : response) (w : World) :
  App.waiting rid w = Some (K_runQuery q hist) →
  failed r = true →
  let w' := step w (Settle rid r) in
  (result w' = result w
   ∧ toasts w'
     = toasts w ++ [{| toast_id := random_id (randoms w); type := error;
                       title := js "Query failed";
                       message := Some (failure_detail r) |}]
   ∧ running w' = false
   ∧ history w' = history w
   ∧ localStorage w' = localStorage w)
  ∧ (∀ w0, nonEmpty (trim (query w0)) = true → result (runQuery w0) = JNull)
  ∧ (∀ w0, issued_in_order w0 → nonEmpty (trim (query w0)) = true →
       result (settle (next_request w0) r (runQuery w0)) = JNull).
Proof.
  intros Hwait Hr w'. subst w'.
  assert (Hok : ∀ status body, r = Responded status body → App.ok status = false).
  { intros status body ->. by apply negb_true_iff in Hr. }
  split; [|split].
  - cbn [App.step]. unfold App.settle. rewrite Hwait. cbn [App.resume].
    unfold App.runQuery_settle.
    destruct r as [m|status body]; [|rewrite (Hok status body eq_refl)];
      cbn; by repeat split.
  - intros w0 Hq. by rewrite runQuery_fetch.
  - intros w0 Hw0 Hq. rewrite runQuery_then_settle by done.
    unfold App.runQuery_settle.
    destruct r as [m|status body]; [|rewrite (Hok status body eq_refl)]; done.
Qed.

(** Without text there is no run, from the button or from the keyboard. *)
Lemma runQuery_blank_noop (w : World) :
  nonEmpty (trim (query w)) = false →
  runQuery w = w
  ∧ App.clickRun JSON_stringify w = w
  ∧ ∀ key shiftKey, App.handleKeySubmit JSON_stringify key shiftKey w = w.
Proof.
  intros Hq. unfold App.handleKeySubmit, App.clickRun, App.runQuery.
  rewrite Hq, orb_true_r. split; [done|]. split; [done|].
  intros key shiftKey. by destruct (_ && _).
Qed.

(** The button does nothing while a run is in flight. *)
Lemma clickRun_running_noop (w : World) :
  running w = true → App.clickRun JSON_stringify w = w.
Proof. intros Hr. unfold App.clickRun. by rewrite Hr. Qed.

(** The Enter key starts a run whether or not one is in flight. *)
Lemma enter_starts_run (w : World) :
  nonEmpty (trim (query w)) = true →
  let w' := App.handleKeySubmit JSON_stringify (js "Enter") false w in
  sent w'
  = sent w ++ [POST_query (JSON_stringify (JObj [(js "query", JStr (trim (query w)))]))]
  ∧ pending w' = pending w ++ [(next_request w, K_runQuery (query w) (history w))]
  ∧ result w' = JNull.
Proof.
  intros Hq. unfold App.handleKeySubmit. simpl. by rewrite runQuery_fetch.
Qed.

(** *** Tables and schema *)


(** *** Upload: the answer *)


(** Deleting a table whose [id] is a string: the selection and the schema
    are cleared when the selected table has the same [id], and kept when it
    has another [id]. *)
Lemma deleteTable_refreshed_with_ids
    (tbl sel : table) (a b : jsstring) (r : response) (w : World) :
  get (tval sel) (js "id") = Some (JStr a) →
  get (tval tbl) (js "id") = Some (JStr b) →
  let w' := App.deleteTable_refreshed random_id TypeError_message tbl (Some sel) r w in
  (a = b → selectedTable w' = None ∧ schema w' = JNull)
  ∧ (a ≠ b → tref sel ≠ tref tbl →
     selectedTable w' = selectedTable w ∧ schema w' = schema w).
Proof.
  intros Ha Hb. unfold App.deleteTable_refreshed, App.selected_is.
  rewrite Ha, Hb. simpl. split.
  - intros Hab. by rewrite (bool_decide_eq_true_2 (a = b)), orb_true_r.
  - intros Hab Href. rewrite !bool_decide_eq_false_2 by done. simpl.
    unfold App.refreshTables_settle.
    destruct r as [m|status body]; [done|].
    destruct (App.ok status); [|done].
    destruct body as [data|m]; [|done].
    destruct (isArray data); [done|]. by destruct data.
Qed.

(** A confirmed deletion that is answered with a 2xx status asks for the
    list of tables again. *)
Lemma deleteTable_settle_refreshes
    (tbl : table) (sel : option table) (status : N) (body : completion json)
    (w : World) :
  App.ok status = true →
  sent (App.deleteTable_settle random_id tbl sel (Responded status body) w)
  = sent w ++ [GET_tables].
Proof. intros Hok. unfold App.deleteTable_settle. by rewrite Hok. Qed.

(** *** Toasts *)

(** C6, as the code has it: a toast is scheduled for removal 6000 ms after
    it was added and is on display until a timer or the user removes it;
    dismissing it leaves the timer in place, takes the toast away, and is
    idempotent; when a timer falls due no toast with its id is left, no
    step of the queue brings a toast back, and a timer whose toast is gone
    changes nothing. *)
Theorem toast_lifecycle (a : toast_arg) (w : World) :
  let id := random_id (randoms w) in
  timers (add a w) = timers w ++ [(now w + 6000, id)]
  ∧ shown id (add a w)
  ∧ (∀ i v, timers (App.remove i v) = timers v
            ∧ ¬ shown i (App.remove i v)
            ∧ App.remove i (App.remove i v) = App.remove i v
            ∧ toasts (App.remove i v) `sublist_of` toasts v)
  ∧ (∀ v dt i due, (due, i) ∈ timers v → due ≤ now v + dt →
       ¬ shown i (App.elapse dt v) ∧ (due, i) ∉ timers (App.elapse dt v))
  ∧ (∀ v dt, toasts (App.elapse dt v) `sublist_of` toasts v)
  ∧ (∀ v dt i, (∀ due, (due, i) ∈ timers v → now v + dt < due) →
       shown i v → shown i (App.elapse dt v))
  ∧ (∀ v dt, (∀ due i, (due, i) ∈ timers v → due ≤ now v + dt → ¬ shown i v) →
       toasts (App.elapse dt v) = toasts v).
Proof.
  intros id. split; [done|]. split.
  { exists {| toast_id := id; type := default success (arg_type a);
               title := arg_title a; message := arg_message a |}.
    split; [|done]. simpl. apply elem_of_app. right. apply list_elem_of_singleton.
    done. }
  split.
  { intros i v. split; [done|]. split; [apply remove_not_shown|].
    split; [apply remove_idemp|]. apply sublist_filter. }
  split.
  { intros v dt i due Hin Hdue. split.
    - intros (t & Ht & <-). rewrite elapse_toasts in Ht.
      apply list_elem_of_filter in Ht as [Hnot _]. apply Hnot.
      apply list_elem_of_fmap. exists (due, toast_id t). split; [done|].
      by apply list_elem_of_filter.
    - rewrite elapse_timers. intros [Hnot _]%list_elem_of_filter. by apply Hnot. }
  split.
  { intros v dt. rewrite elapse_toasts. apply sublist_filter. }
  split.
  { intros v dt i Hlater (t & Ht & <-). exists t. split; [|done].
    rewrite elapse_toasts. apply list_elem_of_filter. split; [|done].
    intros ([due i'] & Hi & [Hdue Hin]%list_elem_of_filter)%list_elem_of_fmap.
    simpl in *. subst i'. specialize (Hlater due Hin). lia. }
  intros v dt Hgone. rewrite elapse_toasts.
  apply filter_keeps_all, Forall_forall. intros t Ht.
  intros ([due i] & Hi & [Hdue Hin]%list_elem_of_filter)%list_elem_of_fmap.
  simpl in *. subst i. apply (Hgone due (toast_id t) Hin Hdue). by exists t.
Qed.

(** *** Request numbers *)

Lemma issued_in_order_next (w w' : World) :
  (pending w' = pending w ∧ next_request w' = next_request w)
  ∨ (∃ k, pending w' = pending w ++ [(next_request w, k)]
          ∧ next_request w' = S (next_request w)) →
  issued_in_order w → issued_in_order w'.
Proof.
  unfold issued_in_order. intros [[-> ->]|(k & -> & ->)] Hw; [done|].
  apply Forall_app. split.
  - eapply Forall_impl; [exact Hw|]. simpl. lia.
  - apply Forall_singleton. simpl. lia.
Qed.

Lemma issued_in_order_forget (rid : nat) (w : World) :
  issued_in_order w → issued_in_order (App.forget rid w).
Proof.
  unfold issued_in_order. simpl. rewrite !Forall_forall.
  intros Hw p [_ Hp]%list_elem_of_filter. by apply Hw.
Qed.

Lemma elapse_network (dt : N) (w : World) :
  pending (App.elapse dt w) = pending w
  ∧ next_request (App.elapse dt w) = next_request w
  ∧ history (App.elapse dt w) = history w.
Proof.
  unfold App.elapse.
  generalize (filter (fun k => fst k ≤ now w + dt) (timers w)).
  generalize (filter (fun k => ¬ fst k ≤ now w + dt) (timers w)).
  intros later due.
  change (pending w) with (pending (with_now (now w + dt) (with_timers later w))).
  change (next_request w)
    with (next_request (with_now (now w + dt) (with_timers later w))).
  change (history w) with (history (with_now (now w + dt) (with_timers later w))).
  generalize (with_now (now w + dt) (with_timers later w)). clear w.
  induction due as [|k due IH]; intros w; [done|]. simpl.
  by destruct (IH (App.remove (snd k) w)) as (-> & -> & ->).
Qed.

Ltac next_request_cases :=
  repeat case_match; simpl;
  first [ left; done | right; eexists; done ].

Lemma issued_in_order_resume (k : kont) (r : response) (w : World) :
  issued_in_order w → issued_in_order (resume k r w).
Proof.
  apply issued_in_order_next.
  unfold App.resume, App.refreshTables_settle, App.fetchSchema_settle,
    App.deleteTable_settle, App.deleteTable_refreshed, App.refreshTables_settle,
    App.runQuery_settle.
  next_request_cases.
Qed.

(** Every step keeps the requests in flight numbered below the next one. *)
Lemma issued_in_order_step (w : World) (e : event) :
  issued_in_order w → issued_in_order (step w e).
Proof.
  intros Hw.
  destruct e as [t|t c| |text| |key shift| |id|files|rid r|rid status text|rid|dt];
    simpl.
  - revert Hw. apply issued_in_order_next. unfold App.selectTable. next_request_cases.
  - revert Hw. apply issued_in_order_next. unfold App.deleteTable. next_request_cases.
  - revert Hw. apply issued_in_order_next. right. by eexists.
  - done.
  - revert Hw. apply issued_in_order_next. unfold App.clickRun, App.runQuery.
    next_request_cases.
  - revert Hw. apply issued_in_order_next. unfold App.handleKeySubmit, App.runQuery.
    next_request_cases.
  - done.
  - done.
  - revert Hw. apply issued_in_order_next. unfold App.handleFiles.
    next_request_cases.
  - unfold App.settle. repeat case_match; try done;
      by apply issued_in_order_resume, issued_in_order_forget.
  - repeat case_match; try done.
    apply (issued_in_order_forget rid) in Hw. revert Hw.
    apply issued_in_order_next. unfold App.xhr_onload. next_request_cases.
  - repeat case_match; try done. by apply (issued_in_order_forget rid) in Hw.
  - revert Hw. apply issued_in_order_next. left.
    by destruct (elapse_network dt w) as (-> & -> & _).
Qed.

Lemma issued_in_order_run (es : list event) (w : World) :
  issued_in_order w → issued_in_order (run w es).
Proof.
  revert w. induction es as [|e es IH]; intros w Hw; [done|].
  simpl. by apply IH, issued_in_order_step.
Qed.

(** A page that started has rendered its history, written the theme and
    asked for the tables. *)
Lemma mount_Normal (store : gmap jsstring jsstring) (w : World) :
  mount store = Normal w →
  ∃ h, history_initializer store = Normal h
       ∧ App.QueryHistory TypeError_message React_error h = Normal ()
       ∧ w = App.refreshTables
               {| toasts := []; tables := JArr []; selectedTable := None;
                  schema := JNull; loadingTables := false; loadingSchema := false;
                  query := []; running := false; result := JNull; history := h;
                  uploading := false; progress := 0;
                  localStorage :=
                    useDarkMode_effect
                      (useDarkMode_initializer true store prefers_dark) store;
                  now := 0; timers := []; randoms := 0; next_request := 0;
                  pending := []; sent := [] |}.
Proof.
  unfold App.mount, cbind. destruct (history_initializer store) as [h|]; [|done].
  destruct (App.QueryHistory _ _ h) as [[]|] eqn:Hrender; [|done].
  intros [= <-]. exists h. split; [done|]. split; [exact Hrender|reflexivity].
Qed.

Lemma issued_in_order_mount (store : gmap jsstring jsstring) (w : World) :
  mount store = Normal w → issued_in_order w.
Proof.
  intros Hmount. apply mount_Normal in Hmount as (h & _ & _ & ->).
  unfold issued_in_order. simpl.
  apply Forall_singleton. simpl. lia.
Qed.

(** *** The history stays a bounded list *)

Lemma bounded_insertHistory (text : jsstring) (h : json) :
  bounded_history h →
  ∃ entries, h = JArr entries ∧ bounded_history (JArr (insertHistory text entries)).
Proof.
  intros (entries & -> & Hnd & _). exists entries. split; [done|].
  eexists. split; [done|]. split.
  - by apply insertHistory_NoDup.
  - apply insertHistory_length.
Qed.

Lemma history_invariant_next (w w' : World) :
  history w' = history w →
  pending w' = pending w
  ∨ (∃ n k, pending w' = pending w ++ [(n, k)]
            ∧ match k with K_runQuery _ h => h = history w | _ => True end) →
  history_invariant w → history_invariant w'.
Proof.
  unfold history_invariant. intros -> [->|(n & k & -> & Hk)] [Hh Hp]; [done|].
  split; [done|]. apply Forall_app. split; [done|]. apply Forall_singleton.
  simpl. destruct k; try done. by subst.
Qed.

Lemma history_invariant_forget (rid : nat) (w : World) :
  history_invariant w → history_invariant (App.forget rid w).
Proof.
  unfold history_invariant. simpl. intros [Hh Hp]. split; [done|].
  rewrite !Forall_forall in *. intros p [_ Hin]%list_elem_of_filter. by apply Hp.
Qed.

Lemma history_invariant_waiting (rid : nat) (q : jsstring) (h : json) (w : World) :
  history_invariant w → App.waiting rid w = Some (K_runQuery q h) →
  bounded_history h.
Proof.
  unfold history_invariant, App.waiting. intros [_ Hp].
  induction Hp as [|[i k] l Hk _ IH]; simpl; [done|].
  case_bool_decide; [|done]. intros [= ->]. exact Hk.
Qed.

Lemma history_invariant_resume (rid : nat) (k : kont) (r : response) (w : World) :
  history_invariant w → App.waiting rid w = Some k →
  history_invariant (resume k r (App.forget rid w)).
Proof.
  intros Hw Hk. pose proof (history_invariant_forget rid w Hw) as Hf.
  destruct k as [| |tbl sel|tbl sel|q h|]; simpl.
  - revert Hf. apply history_invariant_next; unfold App.refreshTables_settle;
      repeat case_match; (done || by left).
  - revert Hf. apply history_invariant_next; unfold App.fetchSchema_settle;
      repeat case_match; (done || by left).
  - revert Hf. apply history_invariant_next; unfold App.deleteTable_settle;
      repeat case_match; simpl; try done; try (by left).
    all: right; by do 2 eexists.
  - revert Hf. apply history_invariant_next;
      unfold App.deleteTable_refreshed, App.refreshTables_settle;
      repeat case_match; (done || by left).
  - destruct (bounded_insertHistory (trim q) h) as (entries & -> & Hnew).
    { exact (history_invariant_waiting rid q h w Hw Hk). }
    unfold App.runQuery_settle, history_invariant in *.
    destruct Hf as [Hh Hp]. by repeat case_match.
  - done.
Qed.

(** Every step keeps the history free of duplicates and at most ten
    entries long. *)
Lemma history_invariant_step (w : World) (e : event) :
  history_invariant w → history_invariant (step w e).
Proof.
  intros Hw.
  destruct e as [t|t c| |text| |key shift| |id|files|rid r|rid status text|rid|dt];
    simpl.
  - revert Hw. apply history_invariant_next; unfold App.selectTable;
      repeat case_match; simpl; try done; try (by left).
    right. by do 2 eexists.
  - revert Hw. apply history_invariant_next; unfold App.deleteTable;
      repeat case_match; simpl; try done; try (by left).
    right. by do 2 eexists.
  - revert Hw. apply history_invariant_next; [done|]. right. by do 2 eexists.
  - done.
  - revert Hw. apply history_invariant_next; unfold App.clickRun, App.runQuery;
      repeat case_match; simpl; try done; try (by left).
    right. by do 2 eexists.
  - revert Hw. apply history_invariant_next; unfold App.handleKeySubmit, App.runQuery;
      repeat case_match; simpl; try done; try (by left).
    right. by do 2 eexists.
  - destruct Hw as [_ Hp]. split; [|done]. exists []. split; [done|].
    split; [apply NoDup_nil_2 | simpl; lia].
  - done.
  - revert Hw. apply history_invariant_next; unfold App.handleFiles;
      repeat case_match; simpl; try done; try (by left).
    right. by do 2 eexists.
  - unfold App.settle. destruct (App.waiting rid w) as [k|] eqn:Hk; [|done].
    destruct k; try done; by apply (history_invariant_resume rid).
  - destruct (App.waiting rid w) as [[]|] eqn:Hk; try done.
    apply (history_invariant_forget rid) in Hw. revert Hw.
    apply history_invariant_next; unfold App.xhr_onload;
      repeat case_match; simpl; try done; try (by left).
    right. by do 2 eexists.
  - destruct (App.waiting rid w) as [[]|] eqn:Hk; try done.
    by apply (history_invariant_forget rid) in Hw.
  - unfold history_invariant.
    by destruct (elapse_network dt w) as (-> & _ & ->).
Qed.

Lemma history_invariant_run (es : list event) (w : World) :
  history_invariant w → history_invariant (run w es).
Proof.
  revert w. induction es as [|e es IH]; intros w Hw; [done|].
  simpl. by apply IH, history_invariant_step.
Qed.

(** A page that starts without a stored history, or with one that is not
    JSON, keeps the invariant for ever. *)
Lemma history_invariant_from_start (store : gmap jsstring jsstring) (w : World)
    (es : list event) :
  history_initializer store = Normal (JArr []) →
  mount store = Normal w →
  history_invariant (run w es).
Proof.
  intros Hinit Hmount. apply history_invariant_run.
  apply mount_Normal in Hmount as (h & Hh & _ & ->).
  rewrite Hinit in Hh. injection Hh as <-. split; simpl.
  - exists []. split; [done|]. split; [apply NoDup_nil_2 | simpl; lia].
  - by apply Forall_singleton.
Qed.

End Properties.

(** ** The theorems at work *)

(** The page of the examples is the page that mounts on an empty store. *)
Example mount_empty_store :
  App.mount Sample.JSON_parse Sample.TypeError_message Sample.prefers_dark
    Sample.React_error ∅ = Normal Sample.start.
Proof. reflexivity. Qed.

(** A store whose history is not JSON: the page starts with an empty
    history. *)
Lemma history_initializer_never_throws_witness :
  let store : gmap jsstring jsstring := <[js "query_history" := js "[oops"]> ∅ in
  Sample.JSON_parse (js "[]") = Normal (JArr [])
  ∧ App.history_initializer Sample.JSON_parse store = Normal (JArr [])
  ∧ ∃ w, App.mount Sample.JSON_parse Sample.TypeError_message
           Sample.prefers_dark Sample.React_error store = Normal w
         ∧ history w = JArr [].
Proof.
  intros store. split; [reflexivity|].
  destruct (history_initializer_never_throws Sample.JSON_parse
              Sample.TypeError_message Sample.prefers_dark Sample.React_error
              store eq_refl) as (_ & _ & H).
  apply (H (js "[oops") (js "Unexpected token")).
  - apply lookup_insert_eq.
  - reflexivity.
Defined.




(** ** Queries at work *)

(** C2, as stated, fails: a result is on display, the next run is answered
    with status 500, and the result is gone instead of being kept. *)
Lemma failed_run_loses_previous_result :
  let w' := Sample.run Scenario.answered
              [KeyDown (js "Enter") false;
               Settle 2 (Responded 500 (Throw (js "no body")))] in
  result Scenario.answered = Scenario.first
  ∧ result w' = JNull
  ∧ result w' ≠ result Scenario.answered.
Proof. split; [reflexivity|]. split; [reflexivity|]. discriminate. Qed.

(** The same run, by the theorem: the failure leaves the result empty, as
    the run had cleared it, and the one new toast carries the status. *)
Lemma failed_run_leaves_result_cleared_witness :
  let r := Responded 500 (Throw (js "no body")) in
  let w := Sample.step Scenario.answered (KeyDown (js "Enter") false) in
  (App.waiting 2 w = Some (K_runQuery (js "top 10") (JArr [JStr (js "top 10")]))
   ∧ failed r = true)
  ∧ result (Sample.step w (Settle 2 r)) = JNull
  ∧ message <$> toasts (Sample.step w (Settle 2 r)) = [None; Some (js "Status 500")].
Proof.
  intros r w.
  assert (Hwait : App.waiting 2 w
                  = Some (K_runQuery (js "top 10") (JArr [JStr (js "top 10")])))
    by reflexivity.
  split; [done|].
  destruct (failed_run_leaves_result_cleared
              Sample.JSON_parse Sample.JSON_stringify Sample.random_id
              Sample.TypeError_message
              2 (js "top 10") (JArr [JStr (js "top 10")]) r w Hwait eq_refl)
    as ((Hres & Htoasts & _) & _).
  split.
  - etransitivity; [exact Hres|reflexivity].
  - unfold Sample.step. rewrite Htoasts. reflexivity.
Defined.

(** Two runs overlap: the first is answered while the second is in flight,
    and when the second fails the answer of the first stays on display. *)
Example failed_run_keeps_other_answer :
  let w' := Sample.run Tour.typed
              [KeyDown (js "Enter") false; KeyDown (js "Enter") false;
               Settle 1 (Responded 200 (Normal Scenario.first));
               Settle 2 (Responded 500 (Throw (js "no body")))] in
  result w' = Scenario.first ∧ running w' = false.
Proof. split; reflexivity. Qed.

(** C3 at work: while a query is in flight the button does nothing, but
    the Enter key sends the query a second time and clears the result. *)
Theorem enter_runs_a_second_query :
  let w := Scenario.in_flight in
  let w' := Sample.step w (KeyDown (js "Enter") false) in
  running w = true
  ∧ Sample.step w ClickRun = w
  ∧ length (sent w) = 2%nat
  ∧ sent w' = sent w ++ [POST_query (Sample.JSON_stringify
                                      (JObj [(js "query", JStr (js "top 10"))]))]
  ∧ pending w' = pending w ++ [(2%nat, K_runQuery (js "top 10") (JArr []))]
  ∧ w' ≠ w.
Proof.
  intros w w'. split; [reflexivity|]. split; [reflexivity|].
  split; [reflexivity|]. split; [reflexivity|]. split; [reflexivity|].
  intros H. apply (f_equal (fun x => length (sent x))) in H. discriminate H.
Qed.

(** ** Tables at work *)





(** C9 at work: table [a] is selected and table [b] is deleted, neither
    with an [id].  The list is asked for again, and the selection and the
    schema of [a] are cleared although [a] was not deleted. *)
Theorem deleting_other_table_clears_selection :
  selectedTable Unkeyed.selected = Some Unkeyed.a
  ∧ schema Unkeyed.selected = Sample.schemaA
  ∧ sent Unkeyed.deleted
    = sent Unkeyed.selected ++ [DELETE_table (Some (JStr (js "b"))); GET_tables]
  ∧ tables Unkeyed.deleted = JArr [tval Unkeyed.a]
  ∧ selectedTable Unkeyed.deleted = None
  ∧ schema Unkeyed.deleted = JNull.
Proof. by repeat split. Qed.

(** ** Toasts at work *)

(** C6, as stated, fails: a toast is dismissed 2000 ms after it appeared,
    and its timer is still scheduled for 6000 ms; it runs then. *)
Lemma dismiss_keeps_timer :
  toasts Refused.dismissed = []
  ∧ now Refused.dismissed = 2000
  ∧ timers Refused.dismissed = [(6000, Sample.random_id 0)]
  ∧ timers (Sample.run Refused.dismissed [Elapse 3999])
    = [(6000, Sample.random_id 0)]
  ∧ timers (Sample.run Refused.dismissed [Elapse 4000]) = [].
Proof. by repeat split. Qed.

(** A toast left alone is gone after 6000 ms and not before; a toast
    dismissed after 2000 ms is not back after 6000 ms. *)
Lemma toast_lifecycle_witness :
  let id := Sample.random_id 0 in
  shown id Refused.refused
  ∧ shown id (Sample.run Refused.refused [Elapse 5999])
  ∧ ¬ shown id (Sample.run Refused.refused [Elapse 6000])
  ∧ ¬ shown id (Sample.run Refused.dismissed [Elapse 4000]).
Proof.
  intros id.
  destruct (toast_lifecycle Sample.random_id
              (App.toast_error (js "Unsupported file")
                 (js "Please upload CSV or Excel files.")) Sample.start)
    as (_ & Hshown & _ & Hdue & _ & Hearly & _).
  split; [exact Hshown|]. split; [|split].
  - apply (Hearly Refused.refused 5999 id); [|exact Hshown].
    intros due [[= ->]|Hin]%elem_of_cons; [done|]. by apply elem_of_nil in Hin.
  - apply (Hdue Refused.refused 6000 id 6000); [by left|done].
  - apply (Hdue Refused.dismissed 4000 id 6000); [by left|done].
Defined.

(** ** The export at work *)

(** C5 at work: a cell that ends in a carriage return is written without
    quotes, the line feed that ends the row follows it, and the reader
    takes the two for a line break: the cell comes back without its last
    character. *)
Theorem carriage_return_lost_in_round_trip :
  csvStrings Sample.inherited Sheet.cols Sheet.rows
  = Some [[js "h"]; [js "a" ++ [Chars.CR]]; [js "b"]]
  ∧ exportCsv Sample.inherited Sheet.cols Sheet.rows
    = Some (js "h" ++ [Chars.LF] ++ js "a" ++ [Chars.CR; Chars.LF] ++ js "b")
  ∧ CsvReader.parse <$> exportCsv Sample.inherited Sheet.cols Sheet.rows
    = Some [[js "h"]; [js "a"]; [js "b"]]
  ∧ CsvReader.parse <$> exportCsv Sample.inherited Sheet.cols Sheet.rows
    ≠ csvStrings Sample.inherited Sheet.cols Sheet.rows.
Proof. split; [reflexivity|]. split; [reflexivity|]. split; [reflexivity|]. discriminate. Qed.

(** The cell of the specification, [Doe, John], is quoted and read back. *)
Example exportCsv_round_trip_example :
  let cols := [JStr (js "name"); JStr (js "n")] in
  let rows := [JObj [(js "name", JStr (js "Doe, John")); (js "n", JNum (js "3"))];
               JObj [(js "name", JNull)]] in
  CsvReader.parse <$> exportCsv Sample.inherited cols rows
  = Some [[js "name"; js "n"]; [js "Doe, John"; js "3"]; [[]; []]].
Proof.
  intros cols rows. apply exportCsv_round_trip; [done|reflexivity| |done].
  compute_done.
Qed.

(** * More of the page *)

(** ** White space *)

Lemma trimStart_head (s : jsstring) (c : N) (rest : jsstring) :
  trimStart s = c :: rest → isWhiteSpace c = false.
Proof.
  induction s as [|d s IH]; simpl; [done|].
  destruct (isWhiteSpace d) eqn:Hd; [done|]. by intros [= <- _].
Qed.

Lemma trimStart_idemp (s : jsstring) : trimStart (trimStart s) = trimStart s.
Proof.
  destruct (trimStart s) as [|c rest] eqn:Hs; [done|].
  simpl. by rewrite (trimStart_head _ _ _ Hs).
Qed.

Lemma trimStart_blank (s : jsstring) :
  trimStart s = [] ↔ Forall (fun c => isWhiteSpace c = true) s.
Proof.
  induction s as [|c s IH]; simpl; [done|].
  destruct (isWhiteSpace c) eqn:Hc.
  - rewrite IH, Forall_cons. tauto.
  - split; [done|]. intros [Hc' _]%Forall_cons. congruence.
Qed.

Lemma trimStart_snoc (s : jsstring) (c : N) :
  isWhiteSpace c = false → trimStart (s ++ [c]) = trimStart s ++ [c].
Proof.
  intros Hc. induction s as [|d s IH]; simpl.
  - by rewrite Hc.
  - by destruct (isWhiteSpace d).
Qed.

Lemma trim_blank (s : jsstring) :
  trim s = [] ↔ Forall (fun c => isWhiteSpace c = true) s.
Proof.
  unfold trim, trimEnd. rewrite <- trimStart_blank. split.
  - intros H. apply (f_equal (@rev N)) in H. rewrite rev_involutive in H.
    simpl in H. apply trimStart_blank, Forall_rev in H.
    rewrite rev_involutive in H.
    destruct (trimStart s) as [|c rest] eqn:Hs; [done|].
    apply Forall_cons in H as [Hc _].
    by rewrite (trimStart_head _ _ _ Hs) in Hc.
  - by intros ->.
Qed.

Lemma trim_idemp (s : jsstring) : trim (trim s) = trim s.
Proof.
  unfold trim, trimEnd. set (u := trimStart s).
  assert (Hfix : trimStart (rev (trimStart (rev u))) = rev (trimStart (rev u))).
  { destruct u as [|d u'] eqn:Hu; [done|].
    pose proof (trimStart_head _ _ _ Hu) as Hd. simpl.
    rewrite trimStart_snoc, rev_unit by done. simpl. by rewrite Hd. }
  by rewrite Hfix, rev_involutive, trimStart_idemp.
Qed.

(** ** The export, read back *)








(** ** The columns of a result without [columns] *)




(** ** The columns of a schema *)

Lemma decimal_digits (n : N) : forallb digit (decimal n) = true.
Proof.
  unfold decimal, js. generalize (N.to_uint n). intros d.
  induction d; simpl; auto.
Qed.

(** Only the decimal text of an index denotes an element. *)
Lemma array_index_None (k : jsstring) (n : nat) :
  forallb digit k = false → array_index k n = None.
Proof.
  intros Hk. unfold array_index.
  destruct (List.find _ _) as [i|] eqn:Hfind; [|done].
  apply List.find_some in Hfind as [_ Hi]. apply bool_decide_eq_true in Hi.
  subst k. by rewrite decimal_digits in Hk.
Qed.

(** A column of the schema may come as an object or as a pair: the object
    with [name] and [type] and the pair of the same two values give the
    same two children, when both values are truthy, and a schema of the two
    columns shows the same row twice when both values are text.  A column
    that has no truthy [name] and no truthy first element gives the empty
    text, and so for the type.  A column that is [null] makes the read
    throw, and with it the whole view, as does a child that is an
    object. *)
Theorem schema_column_either_form (name type : json) (rest : list json) :
  truthy (Some name) = true → truthy (Some type) = true →
  let object := JObj [(js "name", name); (js "type", type)] in
  let pair := JArr (name :: type :: rest) in
  (SchemaView_name object = Some name ∧ SchemaView_type object = Some type
   ∧ SchemaView_name pair = Some name ∧ SchemaView_type pair = Some type)
  ∧ (SchemaView (JObj [(js "columns", JArr [object; pair])])
     = if React_child name && React_child type
       then Some [(name, type); (name, type)] else None)
  ∧ (∀ c, c ≠ JNull →
       (truthy (get c (js "name")) = false → truthy (at_index c 0) = false →
        SchemaView_name c = Some (JStr []))
       ∧ (truthy (get c (js "type")) = false → truthy (at_index c 1) = false →
          SchemaView_type c = Some (JStr [])))
  ∧ (SchemaView_name JNull = None ∧ SchemaView_type JNull = None)
  ∧ (∀ schema columns,
       get schema (js "columns") = Some (JArr columns) → JNull ∈ columns →
       SchemaView schema = None).
Proof.
  intros Hname Htype object pair.
  assert (Hn : get object (js "name") = Some name) by reflexivity.
  assert (Ht : get object (js "type") = Some type) by reflexivity.
  assert (Hpn : get pair (js "name") = None).
  { unfold pair. cbn [get]. rewrite bool_decide_eq_false_2 by done.
    by rewrite array_index_None. }
  assert (Hpt : get pair (js "type") = None).
  { unfold pair. cbn [get]. rewrite bool_decide_eq_false_2 by done.
    by rewrite array_index_None. }
  assert (H0 : at_index pair 0 = Some name) by reflexivity.
  assert (H1 : at_index pair 1 = Some type) by reflexivity.
  assert (Hforms : SchemaView_name object = Some name
                   ∧ SchemaView_type object = Some type
                   ∧ SchemaView_name pair = Some name
                   ∧ SchemaView_type pair = Some type).
  { unfold SchemaView_name, SchemaView_type, js_or. cbv iota.
    rewrite Hn, Ht, Hpn, Hpt, H0, H1, Hname, Htype.
    change (truthy None) with false. cbv iota. rewrite Hname, Htype.
    by repeat split. }
  split; [exact Hforms|]. destruct Hforms as (Hon & Hot & Hpn' & Hpt').
  split; [|split; [|split; [done|]]].
  - unfold SchemaView.
    change (get (JObj [(js "columns", JArr [object; pair])]) (js "columns"))
      with (Some (JArr [object; pair])).
    cbn [mapM]. rewrite Hon, Hot, Hpn', Hpt'. cbn [mbind option_bind].
    by destruct (React_child name && React_child type).
  - intros c Hc. split.
    + intros Hcn Hc0. unfold SchemaView_name, js_or. rewrite Hcn, Hc0.
      by destruct c.
    + intros Hct Hc1. unfold SchemaView_type, js_or. rewrite Hct, Hc1.
      by destruct c.
  - intros schema columns Hget Hnull. unfold SchemaView. rewrite Hget.
    apply mapM_None_2, Exists_exists. by exists JNull.
Qed.

Section Behaviour.

Variable JSON_parse : jsstring -> completion json.
Variable JSON_stringify : json -> jsstring.
Variable random_id : nat -> jsstring.
Variable TypeError_message : jsstring.
Variable prefers_dark : bool.
Variable React_error : json -> jsstring.

Local Abbreviation add := (App.add random_id).
Local Abbreviation runQuery := (App.runQuery JSON_stringify).
Local Abbreviation resume := (App.resume JSON_stringify random_id TypeError_message).
Local Abbreviation settle := (App.settle JSON_stringify random_id TypeError_message).
Local Abbreviation step := (App.step JSON_parse JSON_stringify random_id TypeError_message).
Local Abbreviation run := (App.run JSON_parse JSON_stringify random_id TypeError_message).
Local Abbreviation history_initializer := (App.history_initializer JSON_parse).
Local Abbreviation mount := (App.mount JSON_parse TypeError_message prefers_dark React_error).
Local Abbreviation updates := (updates JSON_stringify random_id).

(** ** Every step is made of the updates *)

Ltac updated :=
  repeat first
    [ apply updates_none
    | apply updates_setTables | apply updates_setSelectedTable
    | apply updates_setSchema | apply updates_setLoadingTables
    | apply updates_setLoadingSchema | apply updates_setQuery
    | apply updates_setRunning | apply updates_setResult
    | apply updates_setUploading | apply updates_setProgress
    | apply updates_add | apply updates_remove | apply updates_elapse
    | apply updates_forget | apply updates_clear
    | apply updates_fetch; [done|]
    | eapply updates_record; [eassumption|] ].

Lemma resume_updates (rid : nat) (k : kont) (r : response) (w : World) :
  App.waiting rid w = Some k → updates w (resume k r (App.forget rid w)).
Proof.
  intros Hk.
  destruct k as [| |tbl sel|tbl sel|q h|]; simpl;
    unfold App.refreshTables_settle, App.fetchSchema_settle,
      App.deleteTable_settle, App.deleteTable_refreshed,
      App.refreshTables_settle, App.runQuery_settle;
    repeat case_match; subst; updated.
Qed.

Lemma step_updates (w : World) (e : event) : updates w (step w e).
Proof.
  destruct e as [t|t c| |text| |key shift| |id|files|rid r|rid status text|rid|dt];
    simpl.
  - unfold App.selectTable, App.fetchSchema. repeat case_match; updated.
  - unfold App.deleteTable. repeat case_match; updated.
  - unfold App.refreshTables. updated.
  - updated.
  - unfold App.clickRun, App.runQuery.
    destruct (running w); simpl; [updated|].
    destruct (nonEmpty (trim (query w))) eqn:Hq; simpl; updated.
  - unfold App.handleKeySubmit, App.runQuery.
    destruct (_ && _); [|updated].
    destruct (nonEmpty (trim (query w))) eqn:Hq; simpl; updated.
  - unfold App.clearHistory. updated.
  - updated.
  - unfold App.handleFiles. repeat case_match; updated.
  - unfold App.settle. destruct (App.waiting rid w) as [k|] eqn:Hk; [|updated].
    destruct k; try (by apply (resume_updates rid)). updated.
  - destruct (App.waiting rid w) as [[]|] eqn:Hk; try updated.
    unfold App.xhr_onload, App.refreshTables. repeat case_match; updated.
  - destruct (App.waiting rid w) as [[]|] eqn:Hk; updated.
  - updated.
Qed.

(** ** What the passing of time leaves alone *)

Lemma elapse_keeps {A} (f : World → A) (dt : N) (w : World) :
  (∀ id v, f (App.remove id v) = f v) →
  (∀ t v, f (with_now t v) = f v) →
  (∀ l v, f (with_timers l v) = f v) →
  f (App.elapse dt w) = f w.
Proof.
  intros Hremove Hnow Htimers. unfold App.elapse.
  generalize (filter (fun k => fst k ≤ now w + dt) (timers w)).
  intros due.
  transitivity
    (f (with_now (now w + dt)
          (with_timers (filter (fun k => ¬ fst k ≤ now w + dt) (timers w)) w)));
    [|by rewrite Hnow, Htimers].
  generalize (with_now (now w + dt)
                (with_timers (filter (fun k => ¬ fst k ≤ now w + dt) (timers w)) w)).
  clear w. induction due as [|k due IH]; intros w; [done|].
  simpl. by rewrite IH, Hremove.
Qed.

Lemma elapse_now (dt : N) (w : World) : now (App.elapse dt w) = now w + dt.
Proof.
  unfold App.elapse.
  by destruct (callbacks_run
    (filter (fun k => fst k ≤ now w + dt) (timers w))
    (with_now (now w + dt)
       (with_timers (filter (fun k => ¬ fst k ≤ now w + dt) (timers w)) w)))
    as (_ & _ & ->).
Qed.

(** ** The theme *)

Lemma updates_stored (key : jsstring) (w w' : World) :
  key ≠ js "query_history" → updates w w' →
  localStorage w' !! key = localStorage w !! key.
Proof.
  intros Hkey. induction 1; simpl; try done.
  - rewrite <- IHupdates. by apply (elapse_keeps (fun v => localStorage v !! key)).
  - by rewrite lookup_insert_ne.
  - by rewrite lookup_insert_ne.
Qed.

(** The theme that was written is the theme the next start of the page
    reads, whatever the system prefers; writing it leaves the stored
    history as it is, and none of the handlers for tables, queries, uploads
    and toasts changes the theme the page would start with. *)
Theorem theme_survives_reload
    (isDark : bool) (store : gmap jsstring jsstring)
    (w : World) (e : event) :
  useDarkMode_initializer true (useDarkMode_effect isDark store) prefers_dark
  = isDark
  ∧ history_initializer (useDarkMode_effect isDark store) = history_initializer store
  ∧ useDarkMode_initializer true (localStorage (step w e)) prefers_dark
    = useDarkMode_initializer true (localStorage w) prefers_dark.
Proof.
  split; [|split].
  - unfold useDarkMode_initializer, useDarkMode_effect. simpl.
    rewrite lookup_insert_eq. by destruct isDark.
  - unfold App.history_initializer, useDarkMode_effect.
    by rewrite lookup_insert_ne.
  - unfold useDarkMode_initializer. simpl.
    by rewrite (updates_stored (js "theme") w (step w e) ltac:(done) (step_updates w e)).
Qed.

(** ** No toast stays *)

Lemma scheduled_add (a : toast_arg) (w : World) :
  toasts_scheduled w → toasts_scheduled (add a w).
Proof.
  intros Hw t. simpl. intros [Ht|Ht]%elem_of_app.
  - destruct (Hw t Ht) as (due & Hin & Hdue). exists due.
    split; [|done]. apply elem_of_app. by left.
  - apply list_elem_of_singleton in Ht as ->. simpl. exists (now w + 6000).
    split; [|done]. apply elem_of_app. right. by apply list_elem_of_singleton.
Qed.

Lemma scheduled_remove (id : jsstring) (w : World) :
  toasts_scheduled w → toasts_scheduled (App.remove id w).
Proof. intros Hw t. simpl. intros [_ Ht]%list_elem_of_filter. by apply Hw. Qed.

Lemma scheduled_elapse (dt : N) (w : World) :
  toasts_scheduled w → toasts_scheduled (App.elapse dt w).
Proof.
  intros Hw t. rewrite elapse_toasts, elapse_timers, elapse_now.
  intros [Hkept Ht]%list_elem_of_filter.
  destruct (Hw t Ht) as (due & Hin & Hdue). exists due. split; [|lia].
  apply list_elem_of_filter. split; [|done]. simpl. intros Hfired.
  apply Hkept, list_elem_of_fmap. exists (due, toast_id t). split; [done|].
  by apply list_elem_of_filter.
Qed.

Lemma updates_scheduled (w w' : World) :
  updates w w' → toasts_scheduled w → toasts_scheduled w'.
Proof.
  induction 1; intros Hw; try (by apply IHupdates).
  - done.
  - by apply scheduled_add, IHupdates.
  - by apply scheduled_remove, IHupdates.
  - by apply scheduled_elapse, IHupdates.
Qed.

Lemma scheduled_run (es : list event) (w : World) :
  toasts_scheduled w → toasts_scheduled (run w es).
Proof.
  revert w. induction es as [|e es IH]; intros w Hw; [done|].
  simpl. apply IH. exact (updates_scheduled w _ (step_updates w e) Hw).
Qed.

Lemma scheduled_expire (w : World) :
  toasts_scheduled w → toasts (App.elapse 6000 w) = [].
Proof.
  intros Hw. rewrite elapse_toasts.
  destruct (filter _ (toasts w)) as [|t l] eqn:Hf; [done|]. exfalso.
  assert (Ht : t ∈ filter
            (fun t => toast_id t
               ∉ (snd <$> filter (fun k => fst k ≤ now w + 6000) (timers w)))
            (toasts w)) by (rewrite Hf; left).
  apply list_elem_of_filter in Ht as [Hkept Ht].
  destruct (Hw t Ht) as (due & Hin & Hdue).
  apply Hkept, list_elem_of_fmap. exists (due, toast_id t). split; [done|].
  by apply list_elem_of_filter.
Qed.

(** Whatever has happened on the page, every toast on display has its
    removal scheduled within 6000 ms: letting 6000 ms pass leaves no
    toast. *)
Theorem no_toast_outlives_6000
    (store : gmap jsstring jsstring) (w : World) (es : list event) :
  mount store = Normal w →
  toasts_scheduled (run w es)
  ∧ toasts (App.elapse 6000 (run w es)) = [].
Proof.
  intros Hmount.
  assert (Hw : toasts_scheduled w).
  { apply mount_Normal in Hmount as (h & _ & _ & ->). intros t Ht. simpl in Ht. by apply elem_of_nil in Ht. }
  pose proof (scheduled_run es w Hw) as Hrun.
  split; [done|]. by apply scheduled_expire.
Qed.

(** ** Blank queries and tidy entries *)

(** A query of white space only is never sent, from the button or from any
    key; and with any text no key but a plain Enter sends it. *)
Theorem blank_query_never_sent (w : World) :
  (Forall (fun c => isWhiteSpace c = true) (query w) →
   step w ClickRun = w ∧ ∀ key shiftKey, step w (KeyDown key shiftKey) = w)
  ∧ (∀ key shiftKey, key ≠ js "Enter" ∨ shiftKey = true →
     step w (KeyDown key shiftKey) = w).
Proof.
  split.
  - intros Hblank%trim_blank. simpl.
    unfold App.clickRun, App.handleKeySubmit, App.runQuery. rewrite Hblank. simpl.
    rewrite orb_true_r. split; [done|]. intros key shiftKey. by destruct (_ && _).
  - intros key shiftKey Hkey. simpl. unfold App.handleKeySubmit.
    destruct Hkey as [Hkey| ->].
    + by rewrite bool_decide_eq_false_2.
    + by rewrite andb_false_r.
Qed.

Lemma tidy_insertHistory (q : jsstring) (entries : list json) :
  nonEmpty (trim q) = true → Forall tidy_entry entries →
  Forall tidy_entry (insertHistory (trim q) entries).
Proof.
  intros Hq Hentries. rewrite insertHistory_unfold. apply Forall_cons. split.
  - exists (trim q). split; [done|]. split; [by destruct (trim q)|].
    apply trim_idemp.
  - rewrite Forall_forall in *. intros x Hx. apply Hentries.
    eapply elem_of_sublist; [exact Hx|].
    etrans; [apply sublist_take | apply sublist_filter].
Qed.

Lemma tidy_waiting (rid : nat) (q : jsstring) (h : json) (w : World) :
  history_tidy w → App.waiting rid w = Some (K_runQuery q h) →
  nonEmpty (trim q) = true ∧ tidy_entries h.
Proof.
  unfold history_tidy, App.waiting. intros [_ Hp].
  induction Hp as [|[i k] l Hk _ IH]; simpl; [done|].
  case_bool_decide; [|done]. intros [= ->]. exact Hk.
Qed.

Lemma updates_tidy (w w' : World) :
  updates w w' → history_tidy w → history_tidy w'.
Proof.
  induction 1 as [ | | | | | | | | | | | | |dt w' _ IH|r k w' Hk _ IH
                 |rid w' _ IH|rid q entries w' Hrid _ IH|w' _ IH];
    intros Hw; try (by apply IHupdates).
  - done.
  - destruct (IH Hw) as [Hh Hp]. split.
    + by rewrite (elapse_keeps history).
    + by rewrite (elapse_keeps pending).
  - destruct (IH Hw) as [Hh Hp]. split; [done|]. simpl.
    apply Forall_app. split; [done|]. apply Forall_singleton. simpl.
    destruct k; try done. destruct Hk as (-> & -> & Hq). split; [done|].
    by destruct Hw.
  - destruct (IH Hw) as [Hh Hp]. split; [done|]. simpl.
    rewrite Forall_forall in *. intros p [_ Hin]%list_elem_of_filter. by apply Hp.
  - destruct (IH Hw) as [Hh Hp]. split; [|done]. simpl.
    destruct (tidy_waiting rid q (JArr entries) w Hw Hrid)
      as (Hq & entries' & [= <-] & Hentries).
    eexists. split; [done|]. by apply tidy_insertHistory.
  - destruct (IH Hw) as [Hh Hp]. split; [|done]. simpl.
    exists []. split; [done|]. apply Forall_nil_2.
Qed.

(** On a page that starts with a history of tidy entries, an empty one
    among them, every entry of the history is at all times a string that
    is not empty and has no white space at either end. *)
Theorem history_entries_stay_tidy
    (store : gmap jsstring jsstring) (w : World) (es : list event) :
  mount store = Normal w →
  tidy_entries (history w) →
  tidy_entries (history (run w es)).
Proof.
  intros Hmount Hh.
  assert (Hw : history_tidy w).
  { split; [done|]. apply mount_Normal in Hmount as (h & _ & _ & ->).
    simpl. by apply Forall_singleton. }
  clear Hmount Hh. revert w Hw.
  induction es as [|e es IH]; intros w Hw; [by destruct Hw|].
  simpl. apply IH. exact (updates_tidy w _ (step_updates w e) Hw).
Qed.

(** On a page that starts with a history without duplicates of at most ten
    entries, the history is such a list at all times. *)
Theorem history_stays_bounded
    (store : gmap jsstring jsstring) (w : World) (es : list event) :
  mount store = Normal w →
  bounded_history (history w) →
  bounded_history (history (run w es)).
Proof.
  intros Hmount Hh.
  assert (Hw : history_invariant w).
  { split; [done|]. apply mount_Normal in Hmount as (h & _ & _ & ->).
    simpl. by apply Forall_singleton. }
  by destruct (history_invariant_run JSON_parse JSON_stringify random_id
                 TypeError_message es w Hw).
Qed.

(** ** The end of an upload *)

(** However an upload ends, the widget is idle again with its progress at
    0 and exactly one toast is raised; an answer outside 200 to 299 and a
    transport error raise an error toast and send nothing. *)
Theorem upload_always_settles (status : N) (text : jsstring) (w : World) :
  let loaded := App.xhr_onload JSON_parse random_id status text w in
  let broken := App.xhr_onerror random_id w in
  (uploading loaded = false ∧ progress loaded = 0
   ∧ length (toasts loaded) = S (length (toasts w)))
  ∧ (App.ok status = false →
     sent loaded = sent w
     ∧ toasts loaded
       = toasts w ++ [{| toast_id := random_id (randoms w); type := error;
                         title := js "Upload failed";
                         message := Some (App.Status status) |}])
  ∧ (uploading broken = false ∧ progress broken = 0 ∧ sent broken = sent w
     ∧ toasts broken
       = toasts w ++ [{| toast_id := random_id (randoms w); type := error;
                         title := js "Network error";
                         message := Some (js "Could not upload file.") |}]).
Proof.
  intros loaded broken. subst loaded broken. unfold App.xhr_onload.
  split; [|split; [|done]].
  - destruct (App.ok status); [destruct (JSON_parse text)|]; simpl;
      (split; [done|]); (split; [done|]); by rewrite length_app, Nat.add_1_r.
  - by intros ->.
Qed.

(** ** The list of tables *)

(** A listing that arrives replaces the whole list: with the array itself,
    with the [tables] of an object, or with the empty list when the object
    has none.  A listing that fails leaves the list as it was and raises
    one toast.  Either way the selection, the schema and the result are
    left alone and the list is no longer loading. *)
Theorem refresh_replaces_or_keeps (r : response) (w : World) :
  issued_in_order w →
  let w' := settle (next_request w) r (App.refreshTables w) in
  (loadingTables w' = false ∧ selectedTable w' = selectedTable w
   ∧ schema w' = schema w ∧ result w' = result w)
  ∧ (∀ status items, r = Responded status (Normal (JArr items)) →
       App.ok status = true → tables w' = JArr items ∧ toasts w' = toasts w)
  ∧ (∀ status fields, r = Responded status (Normal (JObj fields)) →
       App.ok status = true →
       toasts w' = toasts w
       ∧ tables w' = if truthy (assoc (js "tables") fields)
                     then default (JArr []) (assoc (js "tables") fields)
                     else JArr [])
  ∧ (failed r = true →
     tables w' = tables w
     ∧ toasts w'
       = toasts w ++ [{| toast_id := random_id (randoms w); type := error;
                         title := js "Failed to load tables";
                         message := Some (failure_detail r) |}]).
Proof.
  intros Hw w'. subst w'. unfold App.refreshTables.
  change (next_request w) with (next_request (setLoadingTables true w)).
  rewrite (settle_fetch JSON_stringify random_id TypeError_message) by done.
  simpl. unfold App.refreshTables_settle. split; [|split; [|split]].
  - destruct r as [m|status [data|m]]; [done| |by destruct (App.ok status)].
    destruct (App.ok status); [|done]. destruct (isArray data); [done|].
    by destruct data.
  - by intros status items -> ->.
  - intros status fields -> ->. simpl. unfold js_or.
    by destruct (truthy (assoc (js "tables") fields)).
  - destruct r as [m|status body]; simpl; [done|].
    intros ->%negb_true_iff. done.
Qed.

(** ** Selecting a table *)

(** Selecting the table that is selected does nothing, so a second click
    on a table sends no second request; selecting a table that has no
    [id], [_id] or [name] selects it, sends nothing and leaves the schema
    on display as it was. *)
Theorem select_again_sends_nothing (t : table) (w : World) :
  step (step w (SelectTable t)) (SelectTable t) = step w (SelectTable t)
  ∧ (truthy (App.table_key t) = false →
     App.same_object (selectedTable w) (Some t) = false →
     selectedTable (step w (SelectTable t)) = Some t
     ∧ sent (step w (SelectTable t)) = sent w
     ∧ schema (step w (SelectTable t)) = schema w).
Proof.
  simpl. unfold App.selectTable. split.
  - destruct (App.same_object (selectedTable w) (Some t)) eqn:Hsame.
    + by rewrite Hsame.
    + destruct (truthy (App.table_key t)); simpl;
        by rewrite bool_decide_eq_true_2.
  - intros Hkey Hsame. by rewrite Hsame, Hkey.
Qed.

(** ** Deleting a table *)

Lemma issued_in_order_issued (r : request) (w : World) :
  issued_in_order w → issued_in_order (issued r w).
Proof.
  unfold issued_in_order. simpl. intros Hw.
  eapply Forall_impl; [exact Hw|]. simpl. lia.
Qed.

(** A deletion that is not confirmed does nothing at all.  A confirmed
    deletion that fails sends the one DELETE request, raises one toast and
    leaves the list, the selection and the schema as they were; the list
    is not asked for again. *)
Theorem delete_declined_or_failed (tbl : table) (r : response) (w : World) :
  issued_in_order w →
  failed r = true →
  let w' := settle (next_request w) r (step w (ClickDelete tbl true)) in
  step w (ClickDelete tbl false) = w
  ∧ sent w' = sent w ++ [DELETE_table (App.table_key tbl)]
  ∧ pending w' = pending w
  ∧ tables w' = tables w ∧ selectedTable w' = selectedTable w
  ∧ schema w' = schema w
  ∧ toasts w'
    = toasts w ++ [{| toast_id := random_id (randoms w); type := error;
                      title := js "Failed to delete";
                      message := Some (failure_detail r) |}].
Proof.
  intros Hw Hr w'. subst w'. simpl. unfold App.deleteTable.
  rewrite (settle_fetch JSON_stringify random_id TypeError_message) by done.
  simpl. unfold App.deleteTable_settle.
  destruct r as [m|status body]; simpl in *; [done|].
  apply negb_true_iff in Hr. by rewrite Hr.
Qed.

(** A confirmed deletion that succeeds asks for the list again, and when
    that request has settled: the table that was selected when the
    deletion began is deselected and the schema cleared if it is the
    deleted object; with nothing selected, or with a selected table whose
    string [id] differs from that of the deleted table, the selection and
    the schema stay. *)
Theorem delete_then_refresh
    (tbl : table) (status : N) (body : completion json) (r : response) (w : World) :
  issued_in_order w →
  App.ok status = true →
  let w1 := settle (next_request w) (Responded status body)
              (step w (ClickDelete tbl true)) in
  let w2 := settle (S (next_request w)) r w1 in
  sent w2 = sent w ++ [DELETE_table (App.table_key tbl); GET_tables]
  ∧ pending w2 = pending w
  ∧ (∀ sel, selectedTable w = Some sel → tref sel = tref tbl →
       selectedTable w2 = None ∧ schema w2 = JNull)
  ∧ (selectedTable w = None → selectedTable w2 = None ∧ schema w2 = schema w)
  ∧ (∀ sel a b, selectedTable w = Some sel → tref sel ≠ tref tbl →
       get (tval sel) (js "id") = Some (JStr a) →
       get (tval tbl) (js "id") = Some (JStr b) → a ≠ b →
       selectedTable w2 = Some sel ∧ schema w2 = schema w).
Proof.
  intros Hw Hok w1 w2. subst w2 w1. simpl. unfold App.deleteTable.
  rewrite (settle_fetch JSON_stringify random_id TypeError_message) by done.
  simpl. unfold App.deleteTable_settle. rewrite Hok.
  set (w0 := setLoadingTables true
               (add (App.toast_success (js "Table deleted") None)
                  (issued (DELETE_table (App.table_key tbl)) w))).
  assert (Hw0 : issued_in_order w0) by by apply issued_in_order_issued.
  change (S (next_request w)) with (next_request w0).
  rewrite (settle_fetch JSON_stringify random_id TypeError_message) by done.
  simpl. unfold App.deleteTable_refreshed.
  assert (Hkeeps : ∀ v,
    sent (App.refreshTables_settle random_id TypeError_message r v) = sent v
    ∧ pending (App.refreshTables_settle random_id TypeError_message r v) = pending v
    ∧ selectedTable (App.refreshTables_settle random_id TypeError_message r v)
      = selectedTable v
    ∧ schema (App.refreshTables_settle random_id TypeError_message r v) = schema v).
  { intros v. unfold App.refreshTables_settle.
    destruct r as [m|st [data|m]]; [done| |by destruct (App.ok st)].
    destruct (App.ok st); [|done]. destruct (isArray data); [done|].
    by destruct data. }
  destruct (Hkeeps (issued GET_tables w0)) as (Hsent & Hpending & Hsel & Hschema).
  split; [|split; [|split; [|split]]].
  - destruct (App.selected_is _ _); cbn -[App.refreshTables_settle];
      rewrite Hsent; simpl; by rewrite <- app_assoc.
  - destruct (App.selected_is _ _); cbn -[App.refreshTables_settle];
      by rewrite Hpending.
  - intros sel -> Href. unfold App.selected_is.
    by rewrite bool_decide_eq_true_2.
  - intros Hnone. rewrite Hnone. cbn -[App.refreshTables_settle].
    by rewrite Hsel, Hschema.
  - intros sel a b Hsome Href Ha Hb Hab. rewrite Hsome. unfold App.selected_is.
    rewrite Ha, Hb. cbn -[App.refreshTables_settle].
    rewrite !bool_decide_eq_false_2 by done. cbn -[App.refreshTables_settle].
    by rewrite Hsel, Hschema.
Qed.

(** ** Clearing the history *)

(** Clearing empties the history and writes the text of the empty array,
    so that the next start of the page loads an empty history. *)
Theorem clear_survives_reload (w : World) :
  JSON_parse (js "[]") = Normal (JArr []) →
  history (step w ClickClear) = JArr []
  ∧ localStorage (step w ClickClear) !! js "query_history" = Some (js "[]")
  ∧ history_initializer (localStorage (step w ClickClear)) = Normal (JArr []).
Proof.
  intros Hempty. simpl. unfold App.clearHistory, App.history_initializer. simpl.
  rewrite lookup_insert_eq. simpl. by rewrite Hempty.
Qed.

Lemma handleKeySubmit_enter (w : World) :
  App.handleKeySubmit JSON_stringify (js "Enter") false w = runQuery w.
Proof. reflexivity. Qed.

Lemma settle_cleared (rid : nat) (r : response) (w : World) :
  settle rid r (App.clearHistory w)
  = match App.waiting rid w with
    | Some K_upload | None => App.clearHistory w
    | Some k => resume k r (App.clearHistory (App.forget rid w))
    end.
Proof. reflexivity. Qed.

(** A run records into the history it saw when it started: when the
    history is cleared while the run is in flight and the run then
    succeeds, the cleared entries are back, in the history and in the
    store, with the text of the run in front. *)
Theorem clear_in_flight_is_undone
    (entries : list json) (status : N) (data : json) (w : World) :
  issued_in_order w →
  history w = JArr entries →
  nonEmpty (trim (query w)) = true →
  App.ok status = true →
  let cleared := step (step w (KeyDown (js "Enter") false)) ClickClear in
  let w' := step cleared (Settle (next_request w) (Responded status (Normal data))) in
  history cleared = JArr []
  ∧ history w' = JArr (insertHistory (trim (query w)) entries)
  ∧ localStorage w' !! js "query_history"
    = Some (JSON_stringify (JArr (insertHistory (trim (query w)) entries))).
Proof.
  intros Hw Hh Hq Hok cleared w'. subst w' cleared.
  change (step w (KeyDown (js "Enter") false))
    with (App.handleKeySubmit JSON_stringify (js "Enter") false w).
  rewrite handleKeySubmit_enter.
  change (step (runQuery w) ClickClear) with (App.clearHistory (runQuery w)).
  split; [done|].
  change (step (App.clearHistory (runQuery w))
            (Settle (next_request w) (Responded status (Normal data))))
    with (settle (next_request w) (Responded status (Normal data))
            (App.clearHistory (runQuery w))).
  rewrite settle_cleared, (runQuery_fetch JSON_stringify) by done.
  change (next_request w) with (next_request (setResult JNull (setRunning true w))).
  rewrite waiting_fetch, forget_fetch by done.
  cbn [App.resume]. unfold App.runQuery_settle. rewrite Hok, Hh.
  split; [done|]. apply lookup_insert_eq.
Qed.

(** ** A stored history that is not a list *)

(** When the history the page loaded is an object, one without a truthy
    [length], which the history panel shows as nothing: a query that
    succeeds shows its result and raises the toast [Query completed], then
    fails to record itself: the toast [Query failed] follows, and the
    history and the store stay as they were. *)
Theorem object_history_never_records
    (fields : list (jsstring * json)) (status : N) (data : json) (w : World) :
  issued_in_order w →
  history w = JObj fields →
  truthy (get (JObj fields) (js "length")) = false →
  nonEmpty (trim (query w)) = true →
  App.ok status = true →
  let w' := settle (next_request w) (Responded status (Normal data)) (runQuery w) in
  result w' = data
  ∧ running w' = false
  ∧ history w' = JObj fields
  ∧ localStorage w' = localStorage w
  ∧ toasts w'
    = toasts w
      ++ [{| toast_id := random_id (randoms w); type := success;
             title := js "Query completed"; message := None |};
          {| toast_id := random_id (S (randoms w)); type := error;
             title := js "Query failed"; message := Some TypeError_message |}].
Proof.
  intros Hw Hh _ Hq Hok w'. subst w'.
  rewrite (runQuery_then_settle JSON_stringify random_id TypeError_message) by done.
  unfold App.runQuery_settle. rewrite Hok, Hh. simpl.
  by rewrite <- app_assoc.
Qed.

(** ** What the page loads and what it wrote *)

(** The first thing the page does with the stored history is to render
    it.  When the stored text parses to a list of values React can render,
    the page starts: with that list as its history, one request, for the
    list of tables, no toast, no selection and no result, and the store as
    it was but for the theme.  When it parses to [null], to an object with a
    truthy [length], or to a list that holds an object, the first render
    throws and the page does not start. *)
Theorem mount_loads_stored_history
    (store : gmap jsstring jsstring) (text : jsstring) (stored : json) :
  store !! js "query_history" = Some text →
  text ≠ [] →
  JSON_parse text = Normal stored →
  (∀ entries, stored = JArr entries → forallb React_child entries = true →
     ∃ w, mount store = Normal w
          ∧ history w = stored
          ∧ sent w = [GET_tables]
          ∧ pending w = [(0%nat, K_refreshTables)]
          ∧ toasts w = [] ∧ selectedTable w = None ∧ result w = JNull
          ∧ localStorage w
            = <[js "theme" := if useDarkMode_initializer true store prefers_dark
                              then js "dark" else js "light"]> store)
  ∧ (stored = JNull → mount store = Throw TypeError_message)
  ∧ (∀ fields, stored = JObj fields →
       truthy (assoc (js "length") fields) = true →
       mount store = Throw TypeError_message)
  ∧ (∀ entries, stored = JArr entries → forallb React_child entries = false →
       mount store = Throw (React_error stored)).
Proof.
  intros Hstore Htext Hparse.
  assert (Hinit : history_initializer store = Normal stored).
  { unfold App.history_initializer. rewrite Hstore.
    destruct text as [|c text]; [done|]. cbn [nonEmpty]. by rewrite Hparse. }
  unfold App.mount. rewrite Hinit. cbn [cbind].
  split; [|split; [|split]].
  - intros entries -> Hrender. cbn [App.QueryHistory]. rewrite Hrender.
    eexists. split; [reflexivity|]. by repeat split.
  - by intros ->.
  - intros fields -> Hlength. cbn [App.QueryHistory get]. by rewrite Hlength.
  - intros entries -> Hrender. cbn [App.QueryHistory]. by rewrite Hrender.
Qed.

Lemma React_child_insertHistory (text : jsstring) (entries : list json) :
  forallb React_child entries = true →
  forallb React_child (insertHistory text entries) = true.
Proof.
  rewrite !List.forallb_forall. intros Hall x Hx%list_elem_of_In.
  unfold insertHistory in Hx. apply subseteq_take in Hx.
  apply elem_of_cons in Hx as [->|Hx]; [done|].
  apply list_elem_of_filter in Hx as [_ Hx]. by apply Hall, list_elem_of_In.
Qed.

(** The history a successful query wrote is the history the next start of
    the page loads, when [JSON.parse] reads back what [JSON.stringify]
    wrote for it and React can render the entries the run took along. *)
Theorem written_history_is_loaded
    (entries : list json) (status : N) (data : json) (w : World) :
  issued_in_order w →
  history w = JArr entries →
  forallb React_child entries = true →
  nonEmpty (trim (query w)) = true →
  App.ok status = true →
  let new := JArr (insertHistory (trim (query w)) entries) in
  JSON_stringify new ≠ [] →
  JSON_parse (JSON_stringify new) = Normal new →
  let w' := settle (next_request w) (Responded status (Normal data)) (runQuery w) in
  ∃ reloaded, mount (localStorage w') = Normal reloaded
              ∧ history reloaded = history w'
              ∧ history w' = new.
Proof.
  intros Hw Hh Hrender Hq Hok new Htext Hcodec w'. subst w'.
  rewrite (runQuery_then_settle JSON_stringify random_id TypeError_message) by done.
  set (w1 := App.runQuery_settle _ _ _ _ _ _ _).
  assert (Hstored : localStorage w1 !! js "query_history" = Some (JSON_stringify new)).
  { subst w1. unfold App.runQuery_settle. rewrite Hok, Hh. simpl.
    apply lookup_insert_eq. }
  assert (Hhistory : history w1 = new).
  { subst w1. unfold App.runQuery_settle. by rewrite Hok, Hh. }
  clearbody w1. unfold App.mount, App.history_initializer. rewrite Hstored.
  destruct (JSON_stringify new) as [|c text] eqn:Hs; [done|].
  cbn [nonEmpty]. rewrite Hcodec. cbn [try_catch cbind]. unfold new at 1.
  cbn [App.QueryHistory]. rewrite React_child_insertHistory by done.
  eexists. split; [reflexivity|]. split; [by rewrite Hhistory|exact Hhistory].
Qed.

(** ** Requests that fail, queries that succeed *)

(** A request that fails is not sent again: whichever code awaits it
    raises exactly one toast and sends nothing, and the list of tables,
    the history and the store stay as they were; so do the selection and
    the schema, unless it is the listing after a deletion that failed. *)
Theorem failed_request_raises_one_toast
    (rid : nat) (k : kont) (r : response) (w : World) :
  App.waiting rid w = Some k → k ≠ K_upload →
  failed r = true →
  let w' := step w (Settle rid r) in
  sent w' = sent w
  ∧ length (toasts w') = S (length (toasts w))
  ∧ tables w' = tables w
  ∧ history w' = history w
  ∧ localStorage w' = localStorage w
  ∧ ((∀ tbl sel, k ≠ K_deleteTable_refreshed tbl sel) →
     selectedTable w' = selectedTable w ∧ schema w' = schema w).
Proof.
  intros Hk Hupload Hr w'. subst w'.
  change (step w (Settle rid r)) with (settle rid r w).
  unfold App.settle. rewrite Hk.
  assert (Hok : ∀ status body, r = Responded status body → App.ok status = false).
  { intros status body ->. by apply negb_true_iff in Hr. }
  destruct k as [| |tbl sel|tbl sel|q h|]; [| | | | |done]; cbn [App.resume];
    unfold App.deleteTable_refreshed, App.refreshTables_settle,
      App.fetchSchema_settle, App.deleteTable_settle, App.runQuery_settle;
    (destruct r as [m|status body]; [|rewrite (Hok status body eq_refl)]);
    try (destruct (App.selected_is sel tbl));
    cbn; rewrite ?length_app, ?Nat.add_1_r;
    repeat (split; [done|]); try done;
    intros Hnot; by destruct (Hnot tbl sel).
Qed.

(** A run that succeeds shows the answer as it came, whatever was on
    display, raises the one toast [Query completed], is no longer running,
    and leaves the list, the selection and the schema alone; a 2xx answer
    whose body does not parse counts as a failure: one toast
    [Query failed], the result stays empty and the history stays. *)
Theorem successful_run_shows_answer
    (entries : list json) (status : N) (body : completion json) (w : World) :
  issued_in_order w →
  history w = JArr entries →
  nonEmpty (trim (query w)) = true →
  App.ok status = true →
  let w' := settle (next_request w) (Responded status body) (runQuery w) in
  running w' = false
  ∧ tables w' = tables w ∧ selectedTable w' = selectedTable w
  ∧ schema w' = schema w ∧ query w' = query w
  ∧ (∀ data, body = Normal data →
       result w' = data
       ∧ toasts w'
         = toasts w ++ [{| toast_id := random_id (randoms w); type := success;
                           title := js "Query completed"; message := None |}])
  ∧ (∀ m, body = Throw m →
       result w' = JNull ∧ history w' = history w
       ∧ toasts w'
         = toasts w ++ [{| toast_id := random_id (randoms w); type := error;
                           title := js "Query failed"; message := Some m |}]).
Proof.
  intros Hw Hh Hq Hok w'. subst w'.
  rewrite (runQuery_then_settle JSON_stringify random_id TypeError_message) by done.
  unfold App.runQuery_settle. rewrite Hok, Hh.
  destruct body as [data|m]; simpl;
    (split; [done|]); (split; [done|]); (split; [done|]); (split; [done|]);
    (split; [done|]); split; intros x Hx; try done;
    injection Hx as <-; done.
Qed.

End Behaviour.

(** ** More of the page at work *)

(** Two toasts of different age: both are gone 6000 ms later. *)
Lemma no_toast_outlives_6000_witness :
  App.mount Sample.JSON_parse Sample.TypeError_message
    Sample.prefers_dark Sample.React_error ∅ = Normal Sample.start
  ∧ length (toasts (Sample.run Sample.start Tour.two_toasts)) = 2%nat
  ∧ toasts (App.elapse 6000 (Sample.run Sample.start Tour.two_toasts)) = [].
Proof.
  split; [reflexivity|]. split; [by vm_compute|].
  exact (proj2 (no_toast_outlives_6000 Sample.JSON_parse Sample.JSON_stringify
                  Sample.random_id Sample.TypeError_message
                  Sample.prefers_dark Sample.React_error ∅ Sample.start Tour.two_toasts eq_refl)).
Defined.

(** Two spaces and a tabulator are not sent, by the button or by Enter. *)
Lemma blank_query_never_sent_witness :
  Forall (fun c => isWhiteSpace c = true) (query Tour.blank)
  ∧ Sample.step Tour.blank ClickRun = Tour.blank
  ∧ Sample.step Tour.blank (KeyDown (js "Enter") false) = Tour.blank
  ∧ Sample.step Scenario.answered (KeyDown (js "Enter") true) = Scenario.answered.
Proof.
  assert (Hblank : Forall (fun c => isWhiteSpace c = true) (query Tour.blank)).
  { repeat (apply Forall_cons_2; [reflexivity|]). apply Forall_nil_2. }
  split; [exact Hblank|].
  destruct (blank_query_never_sent Sample.JSON_parse Sample.JSON_stringify
              Sample.random_id Sample.TypeError_message Tour.blank)
    as [Hnone _].
  destruct (Hnone Hblank) as [Hclick Hkey].
  split; [exact Hclick|]. split; [exact (Hkey (js "Enter") false)|].
  destruct (blank_query_never_sent Sample.JSON_parse Sample.JSON_stringify
              Sample.random_id Sample.TypeError_message Scenario.answered)
    as [_ Hshift].
  exact (Hshift (js "Enter") true (or_intror eq_refl)).
Defined.

(** After two queries the history holds their trimmed texts. *)
Lemma history_entries_stay_tidy_witness :
  (App.mount Sample.JSON_parse Sample.TypeError_message
    Sample.prefers_dark Sample.React_error ∅ = Normal Sample.start
   ∧ tidy_entries (history Sample.start))
  ∧ history (Sample.run Sample.start Tour.two_queries)
    = JArr [JStr (js "count rows"); JStr (js "top 10")]
  ∧ tidy_entries (history (Sample.run Sample.start Tour.two_queries)).
Proof.
  assert (Hstart : tidy_entries (history Sample.start)).
  { exists []. split; [reflexivity|]. apply Forall_nil_2. }
  split; [split; [reflexivity|exact Hstart]|]. split; [by vm_compute|].
  exact (history_entries_stay_tidy Sample.JSON_parse Sample.JSON_stringify
           Sample.random_id Sample.TypeError_message
           Sample.prefers_dark Sample.React_error ∅ Sample.start Tour.two_queries eq_refl Hstart).
Defined.

(** The same two queries: the history has no duplicates and two entries. *)
Lemma history_stays_bounded_witness :
  (App.mount Sample.JSON_parse Sample.TypeError_message
    Sample.prefers_dark Sample.React_error ∅ = Normal Sample.start
   ∧ bounded_history (history Sample.start))
  ∧ bounded_history (history (Sample.run Sample.start Tour.two_queries)).
Proof.
  assert (Hstart : bounded_history (history Sample.start)).
  { exists []. split; [reflexivity|]. split; [apply NoDup_nil_2|simpl; lia]. }
  split; [split; [reflexivity|exact Hstart]|].
  exact (history_stays_bounded Sample.JSON_parse Sample.JSON_stringify
           Sample.random_id Sample.TypeError_message
           Sample.prefers_dark Sample.React_error ∅ Sample.start Tour.two_queries eq_refl Hstart).
Defined.

(** An upload answered with status 500. *)
Lemma upload_always_settles_witness :
  let w := App.xhr_onload Sample.JSON_parse Sample.random_id 500 (js "oops")
             Sample.start in
  App.ok 500 = false
  ∧ uploading w = false ∧ progress w = 0
  ∧ sent w = sent Sample.start
  ∧ message <$> toasts w = [Some (js "Status 500")].
Proof.
  intros w. split; [reflexivity|].
  destruct (upload_always_settles Sample.JSON_parse Sample.random_id
              500 (js "oops") Sample.start) as ((Hup & Hprog & _) & Hbad & _).
  destruct (Hbad eq_refl) as [Hsent Htoasts].
  split; [exact Hup|]. split; [exact Hprog|]. split; [exact Hsent|].
  subst w. by rewrite Htoasts.
Defined.

(** A listing that comes as an object with [tables]. *)
Lemma refresh_replaces_or_keeps_witness :
  let w' := Sample.run Sample.start [ClickRefresh; Settle 1 Tour.listing] in
  issued_in_order Sample.start
  ∧ tables w' = JArr [tval Sample.tableA]
  ∧ loadingTables w' = false.
Proof.
  intros w'. assert (Hw : issued_in_order Sample.start) by in_order.
  split; [exact Hw|].
  destruct (refresh_replaces_or_keeps Sample.JSON_stringify Sample.random_id
              Sample.TypeError_message Tour.listing Sample.start Hw)
    as ((Hloading & _) & _ & Hobject & _).
  destruct (Hobject 200 _ eq_refl eq_refl) as [_ Htables].
  split; [exact Htables|exact Hloading].
Defined.

(** A table without [id], [_id] and [name] is selected without a request;
    table A, selected twice, is fetched once. *)
Lemma select_again_sends_nothing_witness :
  (truthy (App.table_key Tour.nameless) = false
   ∧ App.same_object (selectedTable Sample.start) (Some Tour.nameless) = false)
  ∧ sent (Sample.step Sample.start (SelectTable Tour.nameless)) = sent Sample.start
  ∧ Sample.run Sample.start [SelectTable Sample.tableA; SelectTable Sample.tableA]
    = Sample.run Sample.start [SelectTable Sample.tableA].
Proof.
  split; [by split|].
  destruct (select_again_sends_nothing Sample.JSON_parse Sample.JSON_stringify
              Sample.random_id Sample.TypeError_message Tour.nameless Sample.start)
    as [_ Hnameless].
  destruct (Hnameless eq_refl eq_refl) as (_ & Hsent & _).
  split; [exact Hsent|].
  exact (proj1 (select_again_sends_nothing Sample.JSON_parse Sample.JSON_stringify
                  Sample.random_id Sample.TypeError_message
                  Sample.tableA Sample.start)).
Defined.

(** A deletion answered with status 404. *)
Lemma delete_declined_or_failed_witness :
  let r := Responded 404 (Throw (js "no body")) in
  let w' := Sample.run Tour.selectedA [ClickDelete Sample.tableA true; Settle 2 r] in
  (issued_in_order Tour.selectedA ∧ failed r = true)
  ∧ selectedTable w' = selectedTable Tour.selectedA
  ∧ sent w' = sent Tour.selectedA ++ [DELETE_table (Some (JStr (js "a")))].
Proof.
  intros r w'. assert (Hw : issued_in_order Tour.selectedA) by in_order.
  split; [by split|].
  destruct (delete_declined_or_failed Sample.JSON_parse Sample.JSON_stringify
              Sample.random_id Sample.TypeError_message
              Sample.tableA r Tour.selectedA Hw eq_refl)
    as (_ & Hsent & _ & _ & Hsel & _).
  split; [exact Hsel|exact Hsent].
Defined.

(** Table A is selected: deleting it clears the selection, deleting table
    B keeps it. *)
Lemma delete_then_refresh_witness :
  let gone := Responded 204 (Throw (js "no body")) in
  let listed := Responded 200 (Normal (JArr [])) in
  (issued_in_order Tour.selectedA ∧ App.ok 204 = true)
  ∧ selectedTable (Sample.run Tour.selectedA
                     [ClickDelete Sample.tableA true; Settle 2 gone; Settle 3 listed])
    = None
  ∧ selectedTable (Sample.run Tour.selectedA
                     [ClickDelete Sample.tableB true; Settle 2 gone; Settle 3 listed])
    = Some Sample.tableA.
Proof.
  intros gone listed. assert (Hw : issued_in_order Tour.selectedA) by in_order.
  split; [by split|]. split.
  - destruct (delete_then_refresh Sample.JSON_parse Sample.JSON_stringify
                Sample.random_id Sample.TypeError_message
                Sample.tableA 204 (Throw (js "no body")) listed Tour.selectedA
                Hw eq_refl) as (_ & _ & Hsame & _).
    exact (proj1 (Hsame Sample.tableA eq_refl eq_refl)).
  - destruct (delete_then_refresh Sample.JSON_parse Sample.JSON_stringify
                Sample.random_id Sample.TypeError_message
                Sample.tableB 204 (Throw (js "no body")) listed Tour.selectedA
                Hw eq_refl) as (_ & _ & _ & _ & Hother).
    refine (proj1 (Hother Sample.tableA (js "a") (js "b") eq_refl _ eq_refl eq_refl _));
      discriminate.
Defined.

(** The history of one entry is cleared. *)
Lemma clear_survives_reload_witness :
  Sample.JSON_parse (js "[]") = Normal (JArr [])
  ∧ history Scenario.answered = JArr [JStr (js "top 10")]
  ∧ history (Sample.step Scenario.answered ClickClear) = JArr []
  ∧ App.history_initializer Sample.JSON_parse
      (localStorage (Sample.step Scenario.answered ClickClear)) = Normal (JArr []).
Proof.
  split; [reflexivity|]. split; [by vm_compute|].
  destruct (clear_survives_reload Sample.JSON_parse Sample.JSON_stringify
              Sample.random_id Sample.TypeError_message Scenario.answered eq_refl)
    as (Hh & _ & Hreload).
  split; [exact Hh|exact Hreload].
Defined.

(** The history is cleared while the second run of [top 10] is in flight:
    the entry is back when the run succeeds. *)
Lemma clear_in_flight_is_undone_witness :
  let w' := Sample.run Scenario.answered
              [KeyDown (js "Enter") false; ClickClear;
               Settle 2 (Responded 200 (Normal Scenario.first))] in
  (issued_in_order Scenario.answered
   ∧ history Scenario.answered = JArr [JStr (js "top 10")])
  ∧ history w' = JArr [JStr (js "top 10")].
Proof.
  intros w'. assert (Hw : issued_in_order Scenario.answered) by in_order.
  assert (Hh : history Scenario.answered = JArr [JStr (js "top 10")])
    by by vm_compute.
  split; [by split|].
  destruct (clear_in_flight_is_undone Sample.JSON_parse Sample.JSON_stringify
              Sample.random_id Sample.TypeError_message
              [JStr (js "top 10")] 200 Scenario.first Scenario.answered
              Hw Hh eq_refl eq_refl) as (_ & Hback & _).
  exact Hback.
Defined.

(** A query on the page whose history is an object: two toasts, the
    history still the object. *)
Lemma object_history_never_records_witness :
  let w' := Sample.run Tour.object_history
              [KeyDown (js "Enter") false;
               Settle 1 (Responded 200 (Normal Scenario.first))] in
  issued_in_order Tour.object_history
  ∧ result w' = Scenario.first
  ∧ history w' = JObj []
  ∧ title <$> toasts w' = [js "Query completed"; js "Query failed"].
Proof.
  intros w'. assert (Hw : issued_in_order Tour.object_history) by in_order.
  split; [exact Hw|].
  destruct (object_history_never_records Sample.JSON_stringify Sample.random_id
              Sample.TypeError_message [] 200 Scenario.first Tour.object_history
              Hw eq_refl eq_refl eq_refl eq_refl) as (Hres & _ & Hh & _ & Htoasts).
  split; [exact Hres|]. split; [exact Hh|].
  subst w'.
  change (Sample.run Tour.object_history
            [KeyDown (js "Enter") false;
             Settle 1 (Responded 200 (Normal Scenario.first))])
    with (App.settle Sample.JSON_stringify Sample.random_id Sample.TypeError_message
            (next_request Tour.object_history)
            (Responded 200 (Normal Scenario.first))
            (App.runQuery Sample.JSON_stringify Tour.object_history)).
  by rewrite Htoasts.
Defined.

(** The schema of table A fails to load: one toast, nothing sent, the
    selection as it was. *)
Lemma failed_request_raises_one_toast_witness :
  let r := Rejected (js "Failed to fetch") in
  let w' := Sample.step Tour.selectedA (Settle 1 r) in
  (App.waiting 1 Tour.selectedA = Some K_fetchSchema ∧ failed r = true)
  ∧ sent w' = sent Tour.selectedA
  ∧ length (toasts w') = 1%nat
  ∧ selectedTable w' = Some Sample.tableA.
Proof.
  intros r w'. split; [by split|].
  destruct (failed_request_raises_one_toast Sample.JSON_parse Sample.JSON_stringify
              Sample.random_id Sample.TypeError_message
              1 K_fetchSchema r Tour.selectedA eq_refl ltac:(discriminate) eq_refl)
    as (Hsent & Htoasts & _ & _ & _ & Hsel).
  split; [exact Hsent|]. split; [exact Htoasts|].
  refine (proj1 (Hsel _)). discriminate.
Defined.

(** The second run of [top 10] is answered with another result. *)
Lemma successful_run_shows_answer_witness :
  let data := JObj [(js "rows", JArr [])] in
  let w' := Sample.run Scenario.answered
              [KeyDown (js "Enter") false; Settle 2 (Responded 200 (Normal data))] in
  (issued_in_order Scenario.answered
   ∧ history Scenario.answered = JArr [JStr (js "top 10")])
  ∧ result Scenario.answered = Scenario.first
  ∧ result w' = data
  ∧ running w' = false.
Proof.
  intros data w'. assert (Hw : issued_in_order Scenario.answered) by in_order.
  assert (Hh : history Scenario.answered = JArr [JStr (js "top 10")])
    by by vm_compute.
  split; [by split|]. split; [by vm_compute|].
  destruct (successful_run_shows_answer Sample.JSON_stringify Sample.random_id
              Sample.TypeError_message [JStr (js "top 10")] 200 (Normal data)
              Scenario.answered Hw Hh eq_refl eq_refl)
    as (Hrunning & _ & _ & _ & _ & Hgood & _).
  split; [exact (proj1 (Hgood data eq_refl))|exact Hrunning].
Defined.



(** The column [id] of type [int], as an object and as a pair. *)
Lemma schema_column_either_form_witness :
  let object := JObj [(js "name", JStr (js "id")); (js "type", JStr (js "int"))] in
  let pair := JArr [JStr (js "id"); JStr (js "int")] in
  (truthy (Some (JStr (js "id"))) = true ∧ truthy (Some (JStr (js "int"))) = true)
  ∧ SchemaView_name pair = Some (JStr (js "id"))
  ∧ SchemaView_type object = Some (JStr (js "int"))
  ∧ SchemaView (JObj [(js "columns", JArr [object; pair])])
    = Some [(JStr (js "id"), JStr (js "int")); (JStr (js "id"), JStr (js "int"))].
Proof.
  intros object pair. split; [by split|].
  destruct (schema_column_either_form (JStr (js "id")) (JStr (js "int")) []
              eq_refl eq_refl) as ((_ & Htype & Hname & _) & Hview & _).
  split; [exact Hname|]. split; [exact Htype|exact Hview].
Defined.

(** A store with the history of one entry. *)
Lemma mount_loads_stored_history_witness :
  (Tour.stored !! js "query_history" = Some Tour.stored_text
   ∧ Tour.stored_text ≠ []
   ∧ Tour.JSON_parse Tour.stored_text = Normal (JArr [JStr (js "top 10")])
   ∧ forallb React_child [JStr (js "top 10")] = true)
  ∧ ∃ w, App.mount Tour.JSON_parse Sample.TypeError_message
           Sample.prefers_dark Sample.React_error Tour.stored = Normal w
         ∧ history w = JArr [JStr (js "top 10")]
         ∧ sent w = [GET_tables]
         ∧ localStorage w !! js "theme" = Some (js "light").
Proof.
  assert (Hstore : Tour.stored !! js "query_history" = Some Tour.stored_text)
    by apply lookup_singleton_eq.
  split; [split; [exact Hstore|by repeat split]|].
  destruct (mount_loads_stored_history Tour.JSON_parse Sample.TypeError_message
              Sample.prefers_dark Sample.React_error Tour.stored Tour.stored_text
              (JArr [JStr (js "top 10")]) Hstore ltac:(done) eq_refl)
    as (Hstarts & _).
  destruct (Hstarts [JStr (js "top 10")] eq_refl eq_refl)
    as (w & Hmount & Hh & Hsent & _ & _ & _ & _ & Hls).
  exists w. split; [exact Hmount|]. split; [exact Hh|]. split; [exact Hsent|].
  rewrite Hls. apply lookup_insert_eq.
Defined.

(** A stored history that is the text [null]: the first render throws. *)
Example mount_stored_null_throws :
  App.mount Tour.null_reader Sample.TypeError_message Sample.prefers_dark
    Sample.React_error {[ js "query_history" := js "null" ]}
  = Throw Sample.TypeError_message.
Proof. reflexivity. Qed.

(** The first query of a page: its text is written and loaded again. *)
Lemma written_history_is_loaded_witness :
  let new := JArr (insertHistory (trim (query Tour.typed)) []) in
  let w' := App.settle Sample.JSON_stringify Sample.random_id Sample.TypeError_message
              1 (Responded 200 (Normal Scenario.first))
              (App.runQuery Sample.JSON_stringify Tour.typed) in
  (issued_in_order Tour.typed
   ∧ Sample.JSON_stringify new ≠ []
   ∧ Tour.JSON_parse (Sample.JSON_stringify new) = Normal new)
  ∧ ∃ reloaded, App.mount Tour.JSON_parse Sample.TypeError_message
    Sample.prefers_dark Sample.React_error (localStorage w') = Normal reloaded
                ∧ history reloaded = JArr [JStr (js "top 10")].
Proof.
  intros new w'. assert (Hw : issued_in_order Tour.typed) by in_order.
  split; [split; [exact Hw|by split]|].
  destruct (written_history_is_loaded Tour.JSON_parse Sample.JSON_stringify
              Sample.random_id Sample.TypeError_message
              Sample.prefers_dark Sample.React_error
              [] 200 Scenario.first Tour.typed Hw eq_refl eq_refl eq_refl eq_refl
              ltac:(done) eq_refl)
    as (reloaded & Hmount & Hsame & Hnew).
  exists reloaded. split; [exact Hmount|]. by rewrite Hsame, Hnew.
Defined.
